(** * Endgame knowledge of the engine (src/src/endgame.cpp)

    A shallow embedding of the endgame evaluators of [endgame.cpp].  Squares,
    ranks and files are [Z] indices with the engine's bit encoding
    ([SQ_A1 = 0 .. SQ_H8 = 63], [file_of s = s & 7], [rank_of s = s >> 3]);
    bitboards are [Z] bit sets; a position is the record of its piece lists
    per color and piece type, its side to move and its fifty-move counter,
    from which the bitboards and counts the evaluators read are derived. *)

From Stdlib Require Import ZArith Lia List String Ascii Bool.
Import ListNotations.
Open Scope Z_scope.

(** ** Engine types and constants (types.h, not among the sources; the
    values are the engine's) *)

Inductive Color := WHITE | BLACK.

Definition color_eqb (a b : Color) : bool :=
  match a, b with
  | WHITE, WHITE | BLACK, BLACK => true
  | _, _ => false
  end.

(** [Color] as the integer the engine stores ([WHITE = 0], [BLACK = 1]). *)
Definition color_z (c : Color) : Z := match c with WHITE => 0 | BLACK => 1 end.

(** [operator~(Color)]. *)
Definition opp (c : Color) : Color := match c with WHITE => BLACK | BLACK => WHITE end.

Inductive PieceType := PAWN | KNIGHT | BISHOP | ROOK | QUEEN | KING.

Definition VALUE_ZERO : Z := 0.
Definition VALUE_DRAW : Z := 0.
Definition VALUE_KNOWN_WIN : Z := 10000.

Definition PawnValueMg : Z := 198.
Definition PawnValueEg : Z := 258.
Definition KnightValueMg : Z := 817.
Definition BishopValueMg : Z := 836.
Definition RookValueMg : Z := 1270.
Definition QueenValueMg : Z := 2521.
Definition RookValueEg : Z := 1278.
Definition QueenValueEg : Z := 2558.

Definition SCALE_FACTOR_DRAW : Z := 0.
Definition SCALE_FACTOR_ONEPAWN : Z := 48.
Definition SCALE_FACTOR_NORMAL : Z := 64.
Definition SCALE_FACTOR_MAX : Z := 128.
Definition SCALE_FACTOR_NONE : Z := 255.

Definition FILE_A : Z := 0.
Definition FILE_B : Z := 1.
Definition FILE_C : Z := 2.
Definition FILE_D : Z := 3.
Definition FILE_E : Z := 4.
Definition FILE_F : Z := 5.
Definition FILE_G : Z := 6.
Definition FILE_H : Z := 7.

Definition RANK_1 : Z := 0.
Definition RANK_2 : Z := 1.
Definition RANK_3 : Z := 2.
Definition RANK_4 : Z := 3.
Definition RANK_5 : Z := 4.
Definition RANK_6 : Z := 5.
Definition RANK_7 : Z := 6.
Definition RANK_8 : Z := 7.

Definition SQ_A1 : Z := 0.
Definition SQ_H5 : Z := 39.
Definition SQ_B6 : Z := 41.
Definition SQ_A7 : Z := 48.
Definition SQ_B7 : Z := 49.
Definition SQ_C7 : Z := 50.
Definition SQ_G7 : Z := 54.
Definition SQ_H7 : Z := 55.
Definition SQ_A8 : Z := 56.
Definition SQ_C8 : Z := 58.

Definition DELTA_N : Z := 8.
Definition DELTA_S : Z := -8.

(** ** Square arithmetic (types.h) *)

Definition file_of (s : Z) : Z := Z.land s 7.
Definition rank_of (s : Z) : Z := Z.shiftr s 3.
Definition make_square (f r : Z) : Z := Z.shiftl r 3 + f.

(** [operator~(Square)]: [s ^ SQ_A8], the square seen from the other side. *)
Definition sq_flip (s : Z) : Z := Z.lxor s SQ_A8.

(** The file mirror of [normalize]: [Square(sq ^ 7)]. *)
Definition sq_mirror (s : Z) : Z := Z.lxor s 7.

Definition relative_rank_r (c : Color) (r : Z) : Z := Z.lxor r (color_z c * 7).
Definition relative_rank (c : Color) (s : Z) : Z := relative_rank_r c (rank_of s).
Definition relative_square (c : Color) (s : Z) : Z := Z.lxor s (color_z c * 56).

Definition pawn_push (c : Color) : Z := match c with WHITE => DELTA_N | BLACK => DELTA_S end.

Definition opposite_colors (s1 s2 : Z) : bool :=
  let s := Z.lxor s1 s2 in
  negb (Z.land (Z.lxor (Z.shiftr s 3) s) 1 =? 0).

(** [distance<File>], [distance<Rank>] and [SquareDistance]. *)
Definition distance_file (x y : Z) : Z := Z.abs (file_of x - file_of y).
Definition distance_rank (x y : Z) : Z := Z.abs (rank_of x - rank_of y).
Definition distance (x y : Z) : Z := Z.max (distance_file x y) (distance_rank x y).

(** [distance(T x, T y)] on two ranks. *)
Definition distance_r (x y : Z) : Z := if x <? y then y - x else x - y.

Definition valid_sq (s : Z) : Prop := 0 <= s < 64.

(** ** Geometry tables (endgame.cpp, lines 35-70) *)

Definition PushToEdges : list Z := [
    400; 360; 320; 280; 280; 320; 360; 400;
    360; 280; 240; 200; 200; 240; 280; 360;
    320; 240; 160; 120; 120; 160; 240; 320;
    280; 200; 120;  80;  80; 120; 200; 280;
    280; 200; 120;  80;  80; 120; 200; 280;
    320; 240; 160; 120; 120; 160; 240; 320;
    360; 280; 240; 200; 200; 240; 280; 360;
    400; 360; 320; 280; 280; 320; 360; 400 ].

Definition PushToCorners : list Z := [
    800; 700; 600; 500; 400; 300; 200; 100;
    700; 560; 460; 360; 260; 160;  60; 200;
    600; 460; 320; 220; 120;  20; 160; 300;
    500; 360; 220;  50; -50; 120; 260; 400;
    400; 260; 120; -50;  50; 220; 360; 500;
    300; 160;  20; 120; 220; 320; 460; 600;
    200;  60; 160; 260; 360; 460; 560; 700;
    100; 200; 300; 400; 500; 600; 700; 800 ].

Definition PushClose : list Z := [0; 0; 400; 320; 240; 160; 80; 40].
Definition PushAway : list Z := [0; 20; 80; 160; 240; 320; 360; 400].

Definition FortressMask (c : Color) : Z :=
  match c with
  | WHITE => 0x00007E4242C37E00
  | BLACK => 0x007EC342427E0000
  end.

Definition KRPPKRPScaleFactors : list Z := [0; 9; 10; 14; 21; 44; 0; 0].

(** Array subscript [t[i]]. *)
Definition tbl (t : list Z) (i : Z) : Z := nth (Z.to_nat i) t 0.

(** ** Bitboards (bitboard.h / bitboard.cpp, not among the sources; the
    definitions are the engine's) *)

Definition square_bb (s : Z) : Z := Z.shiftl 1 s.

Definition bb_of_list (l : list Z) : Z :=
  fold_right (fun s b => Z.lor (square_bb s) b) 0 l.

Definition all_squares : list Z := map Z.of_nat (seq 0 64).

(** The bitboard of the squares satisfying [p]. *)
Definition bb_of_pred (p : Z -> bool) : Z := bb_of_list (filter p all_squares).

Definition nonzero (b : Z) : bool := negb (b =? 0).

Definition DarkSquares : Z := 0xAA55AA55AA55AA55.
Definition FileABB : Z := 0x0101010101010101.
Definition FileCBB : Z := Z.shiftl FileABB 2.
Definition FileFBB : Z := Z.shiftl FileABB 5.
Definition FileHBB : Z := Z.shiftl FileABB 7.

Definition file_bb (f : Z) : Z := Z.shiftl FileABB f.

Definition adjacent_files_bb (f : Z) : Z :=
  Z.lor (if 0 <? f then file_bb (f - 1) else 0)
        (if f <? 7 then file_bb (f + 1) else 0).

(** [InFrontBB[c][r]]: the ranks in front of rank [r] from [c]'s view. *)
Definition in_front_bb (c : Color) (r : Z) : Z :=
  bb_of_pred (fun s => match c with
                       | WHITE => r <? rank_of s
                       | BLACK => rank_of s <? r
                       end).

(** [ForwardBB[c][s]]. *)
Definition forward_bb (c : Color) (s : Z) : Z :=
  Z.land (in_front_bb c (rank_of s)) (file_bb (file_of s)).

(** [PassedPawnMask[c][s] = ForwardBB[c][s] | PawnAttackSpan[c][s]]. *)
Definition passed_pawn_mask (c : Color) (s : Z) : Z :=
  Z.land (in_front_bb c (rank_of s))
         (Z.lor (file_bb (file_of s)) (adjacent_files_bb (file_of s))).

Definition lsb (b : Z) : Z := Z.log2 (Z.land b (Z.opp b)).
Definition msb (b : Z) : Z := Z.log2 b.

Definition backmost_sq (c : Color) (b : Z) : Z :=
  match c with WHITE => lsb b | BLACK => msb b end.

Definition more_than_one (b : Z) : bool := nonzero (Z.land b (b - 1)).

(** [StepAttacksBB]: the targets [s + d] of the steps [d] that stay on the
    board without wrapping around an edge. *)
Definition step_attacks (s : Z) (steps : list Z) : Z :=
  bb_of_list (filter (fun t => (0 <=? t) && (t <? 64) && (distance s t <? 3))
                     (map (Z.add s) steps)).

Definition king_attacks (s : Z) : Z := step_attacks s [9; 7; -7; -9; 8; 1; -1; -8].

Definition pawn_attacks (c : Color) (s : Z) : Z :=
  step_attacks s (match c with WHITE => [7; 9] | BLACK => [-7; -9] end).

(** One ray of [sliding_attack]: step by [d] until the edge, including the
    first occupied square. *)
Fixpoint slide (fuel : nat) (s d occ : Z) : Z :=
  match fuel with
  | O => 0
  | S n =>
      let t := s + d in
      if (0 <=? t) && (t <? 64) && (distance t s =? 1)
      then Z.lor (square_bb t) (if Z.testbit occ t then 0 else slide n t d occ)
      else 0
  end.

(** [attacks_bb<BISHOP>(s, occ)]. *)
Definition bishop_attacks_bb (s occ : Z) : Z :=
  fold_right (fun d b => Z.lor (slide 7 s d occ) b) 0 [9; -7; -9; 7].

(** [PseudoAttacks[BISHOP][s]]: bishop attacks on an empty board. *)
Definition bishop_pseudo_attacks (s : Z) : Z := bishop_attacks_bb s 0.

(** ** The position snapshot (position.h, not among the sources) *)

Record Position := mkPosition {
  side_to_move : Color;
  rule50_count : Z;
  (** [pieceList[c][pt]]: the squares of [c]'s pieces of type [pt]. *)
  piece_list : Color -> PieceType -> list Z
}.

Definition all_types : list PieceType := [PAWN; KNIGHT; BISHOP; ROOK; QUEEN; KING].

Definition pieces_cp (pos : Position) (c : Color) (pt : PieceType) : Z :=
  bb_of_list (piece_list pos c pt).

Definition pieces_c (pos : Position) (c : Color) : Z :=
  fold_right (fun pt b => Z.lor (pieces_cp pos c pt) b) 0 all_types.

Definition pieces_pt (pos : Position) (pt : PieceType) : Z :=
  Z.lor (pieces_cp pos WHITE pt) (pieces_cp pos BLACK pt).

Definition pieces_all (pos : Position) : Z :=
  Z.lor (pieces_c pos WHITE) (pieces_c pos BLACK).

Definition count (pos : Position) (c : Color) (pt : PieceType) : Z :=
  Z.of_nat (List.length (piece_list pos c pt)).

(** [square<Pt>(c)]: the first entry of the piece list. *)
Definition square (pos : Position) (c : Color) (pt : PieceType) : Z :=
  hd 0 (piece_list pos c pt).

(** [squares<Pt>(c)[i]]. *)
Definition square_i (pos : Position) (c : Color) (pt : PieceType) (i : nat) : Z :=
  nth i (piece_list pos c pt) 0.

Definition non_pawn_material (pos : Position) (c : Color) : Z :=
    KnightValueMg * count pos c KNIGHT + BishopValueMg * count pos c BISHOP
  + RookValueMg * count pos c ROOK + QueenValueMg * count pos c QUEEN.

Definition pawn_passed (pos : Position) (c : Color) (s : Z) : bool :=
  Z.land (pieces_cp pos (opp c) PAWN) (passed_pawn_mask c s) =? 0.

(** [attacks_from<BISHOP>(s)]: bishop attacks through the occupied squares. *)
Definition attacks_from_bishop (pos : Position) (s : Z) : Z :=
  bishop_attacks_bb s (pieces_all pos).

(** Every piece stands on a square of the board. *)
Definition pos_valid (pos : Position) : Prop :=
  forall c pt s, In s (piece_list pos c pt) -> valid_sq s.

(** ** Square normalizer (endgame.cpp, lines 80-91) *)

Definition normalize (pos : Position) (strongSide : Color) (sq : Z) : Z :=
  let sq := if FILE_E <=? file_of (square pos strongSide PAWN) then sq_mirror sq else sq in
  match strongSide with
  | BLACK => sq_flip sq
  | WHITE => sq
  end.

(** ** Value evaluators *)

(** Stalemate detection with lone king (lines 153-155).  [legal_moves pos]
    is [MoveList<LEGAL>(pos).size()] of the move generator. *)
Definition kxk_stalemate (legal_moves : Position -> nat) (strongSide : Color)
    (pos : Position) : bool :=
  color_eqb (side_to_move pos) (opp strongSide) && Nat.eqb (legal_moves pos) 0.

(** Draw detection with 2 or more bishops of the same color (and no pawns!)
    (lines 157-165). *)
Definition kxk_same_colored_bishops (strongSide : Color) (pos : Position) : bool :=
  (1 <? count pos strongSide BISHOP)
  && negb (nonzero (Z.land (pieces_cp pos strongSide BISHOP) DarkSquares)
           && nonzero (Z.land (pieces_cp pos strongSide BISHOP) (Z.lnot DarkSquares)))
  && (count pos strongSide PAWN =? 0)
  && (count pos strongSide KNIGHT =? 0)
  && (count pos strongSide ROOK =? 0)
  && (count pos strongSide QUEEN =? 0).

(** [Endgame<KXK>::operator()] (lines 147-190). *)
Definition Endgame_KXK (legal_moves : Position -> nat) (strongSide : Color)
    (pos : Position) : Z :=
  let weakSide := opp strongSide in
  if kxk_stalemate legal_moves strongSide pos then VALUE_DRAW
  else if kxk_same_colored_bishops strongSide pos then VALUE_DRAW
  else
    let winnerKSq := square pos strongSide KING in
    let loserKSq := square pos weakSide KING in
    let result := VALUE_KNOWN_WIN
                  + Z.quot (non_pawn_material pos strongSide) 10
                  + tbl PushToEdges loserKSq
                  + tbl PushClose (distance winnerKSq loserKSq) in
    let result :=
      if (count pos strongSide BISHOP =? 1) && (count pos strongSide KNIGHT =? 1)
      then
        let bishopSq := square pos strongSide BISHOP in
        let '(winnerKSq, loserKSq) :=
          if opposite_colors bishopSq SQ_A1
          then (sq_flip winnerKSq, sq_flip loserKSq)
          else (winnerKSq, loserKSq) in
        result + tbl PushToCorners loserKSq
      else result in
    if color_eqb strongSide (side_to_move pos) then result else - result.

(** [Endgame<KPK>::operator()] (lines 194-213).  [probe] is
    [Bitbases::probe(wksq, psq, bksq, us)]. *)
Definition Endgame_KPK (probe : Z -> Z -> Z -> Color -> bool) (strongSide : Color)
    (pos : Position) : Z :=
  let weakSide := opp strongSide in
  (* Assume strongSide is white and the pawn is on files A-D *)
  let wksq := normalize pos strongSide (square pos strongSide KING) in
  let bksq := normalize pos strongSide (square pos weakSide KING) in
  let psq := normalize pos strongSide (square pos strongSide PAWN) in
  let us := if color_eqb strongSide (side_to_move pos) then WHITE else BLACK in
  if negb (probe wksq psq bksq us) then VALUE_DRAW
  else
    let result := VALUE_KNOWN_WIN - Z.quot PawnValueEg 4 * (7 - rank_of psq) in
    if color_eqb strongSide (side_to_move pos) then result else - result.

(** [Endgame<KRKP>::operator()] (lines 220-268). *)
Definition Endgame_KRKP (strongSide : Color) (pos : Position) : Z :=
  let weakSide := opp strongSide in
  let wksq := relative_square strongSide (square pos strongSide KING) in
  let bksq := relative_square strongSide (square pos weakSide KING) in
  let rsq := relative_square strongSide (square pos strongSide ROOK) in
  let psq := relative_square strongSide (square pos weakSide PAWN) in
  let queeningSq := make_square (file_of psq) RANK_1 in
  let strongToMove := if color_eqb (side_to_move pos) strongSide then 1 else 0 in
  let weakToMove := if color_eqb (side_to_move pos) weakSide then 1 else 0 in
  let result :=
    (* If both, the pawn and the king of the weaker side, are not beyond
       the 3rd rank and it's the stronger side to move, it's a win. *)
    if (RANK_6 <=? rank_of bksq) && (RANK_6 <=? rank_of psq)
       && color_eqb (side_to_move pos) strongSide
    then VALUE_KNOWN_WIN + Z.quot RookValueEg 10 - PawnValueEg
    (* If the stronger side's king is in front of the pawn, it's a win *)
    else if (wksq <? psq) && (distance_file wksq psq <=? 1)
            && ((RANK_3 <=? rank_of psq) || (2 <=? distance bksq psq))
    then VALUE_KNOWN_WIN + Z.quot RookValueEg 10 - PawnValueEg
    (* If the weaker side's king is too far from the pawn and the rook,
       it's a win. *)
    else if (3 + weakToMove <=? distance bksq psq) && (2 <=? distance bksq rsq)
            && (negb (rank_of psq =? RANK_2) || (distance wksq queeningSq <=? 1))
    then VALUE_KNOWN_WIN + Z.quot RookValueEg 10 - PawnValueEg
    (* If the pawn is far advanced and supported by the defending king,
       the position is drawish *)
    else if (rank_of bksq <=? RANK_3) && (distance bksq psq =? 1)
            && (RANK_4 <=? rank_of wksq) && (2 + strongToMove <? distance wksq psq)
    then 80 - 8 * distance wksq psq
    else 200 - 8 * (distance wksq (psq + DELTA_S) - distance bksq (psq + DELTA_S)
                    - distance psq queeningSq) in
  if color_eqb strongSide (side_to_move pos) then result else - result.

(** [Endgame<KQKP>::operator()] (lines 275-293).  [Bitboard & Square] tests
    the square's bit. *)
Definition Endgame_KQKP (strongSide : Color) (pos : Position) : Z :=
  let weakSide := opp strongSide in
  let winnerKSq := square pos strongSide KING in
  let loserKSq := square pos weakSide KING in
  let pawnSq := square pos weakSide PAWN in
  let result := Z.quot (tbl PushClose (distance winnerKSq loserKSq)) (rule50_count pos + 1) in
  let result :=
    if negb (relative_rank weakSide pawnSq =? RANK_7)
       || negb (distance loserKSq pawnSq =? 1)
       || negb (nonzero (Z.land (Z.lor (Z.lor (Z.lor FileABB FileCBB) FileFBB) FileHBB)
                                (square_bb pawnSq)))
    then result + (VALUE_KNOWN_WIN + Z.quot QueenValueEg 10 - PawnValueEg)
    else result in
  if color_eqb strongSide (side_to_move pos) then result else - result.

(** ** Scale evaluators *)

(** [Endgame<KBPsK>::operator()] (lines 304-379). *)
Definition Endgame_KBPsK (strongSide : Color) (pos : Position) : Z :=
  let weakSide := opp strongSide in
  let pawns := pieces_cp pos strongSide PAWN in
  let pawnsFile := file_of (lsb pawns) in
  (* All pawns are on a single rook file? *)
  if ((pawnsFile =? FILE_A) || (pawnsFile =? FILE_H))
     && (Z.land pawns (Z.lnot (file_bb pawnsFile)) =? 0)
     && (let bishopSq := square pos strongSide BISHOP in
         let queeningSq := relative_square strongSide (make_square pawnsFile RANK_8) in
         let kingSq := square pos weakSide KING in
         opposite_colors queeningSq bishopSq && (distance queeningSq kingSq <=? 1))
  then SCALE_FACTOR_DRAW
  (* Check for the fortress draw in KBPK *)
  else if (count pos strongSide PAWN =? 1)
          && negb (more_than_one (pieces_c pos weakSide))
          && ((pawnsFile =? FILE_B) || (pawnsFile =? FILE_G))
          && (let pawnSq := normalize pos strongSide (square pos strongSide PAWN) in
              let weakKingSq := normalize pos strongSide (square pos weakSide KING) in
              let bishopSq := normalize pos strongSide (square pos strongSide BISHOP) in
              (pawnSq =? SQ_B6) && (bishopSq =? SQ_A7)
              && ((weakKingSq =? SQ_B7) || (weakKingSq =? SQ_A8)))
  then SCALE_FACTOR_DRAW
  (* If all the pawns are on the same B or G file, then it's potentially a draw *)
  else if ((pawnsFile =? FILE_B) || (pawnsFile =? FILE_G))
          && (Z.land (pieces_pt pos PAWN) (Z.lnot (file_bb pawnsFile)) =? 0)
          && (non_pawn_material pos weakSide =? 0)
          && (1 <=? count pos weakSide PAWN)
          && (let weakPawnSq := backmost_sq weakSide (pieces_cp pos weakSide PAWN) in
              let strongKingSq := square pos strongSide KING in
              let weakKingSq := square pos weakSide KING in
              let bishopSq := square pos strongSide BISHOP in
              (relative_rank strongSide weakPawnSq =? RANK_7)
              && nonzero (Z.land (pieces_cp pos strongSide PAWN)
                                 (square_bb (weakPawnSq + pawn_push weakSide)))
              && (opposite_colors bishopSq weakPawnSq || (count pos strongSide PAWN =? 1))
              && (let strongKingDist := distance weakPawnSq strongKingSq in
                  let weakKingDist := distance weakPawnSq weakKingSq in
                  (RANK_7 <=? relative_rank strongSide weakKingSq)
                  && (weakKingDist <=? 2)
                  && (weakKingDist <=? strongKingDist)))
  then SCALE_FACTOR_DRAW
  else SCALE_FACTOR_NONE.

(** The fortress test of [Endgame<KQKRPs>] (lines 395-399): a weak pawn in
    the fortress zone, the strong king beyond the weak rook's rank, and a weak
    pawn next to the weak king defending the rook. *)
Definition kqkrps_fortress (strongSide : Color) (pos : Position) : bool :=
  let weakSide := opp strongSide in
  let strongKingSq := square pos strongSide KING in
  let weakKingSq := square pos weakSide KING in
  let rsq := square pos weakSide ROOK in
  nonzero (Z.land (pieces_cp pos weakSide PAWN) (FortressMask weakSide))
  && (relative_rank weakSide rsq <? relative_rank weakSide strongKingSq)
  && nonzero (Z.land (Z.land (pieces_cp pos weakSide PAWN) (king_attacks weakKingSq))
                     (pawn_attacks strongSide rsq)).

(** [Endgame<KQKRPs>::operator()] (lines 384-404).  The factor is
    [int(SCALE_FACTOR_NORMAL * double((101 - rule50) / 172))]: the quotient is
    a C++ [int] division, truncated toward zero, before it is widened to
    [double]; the product of an [int] by [64] is exact in [double]. *)
Definition Endgame_KQKRPs (strongSide : Color) (pos : Position) : Z :=
  if kqkrps_fortress strongSide pos
  then SCALE_FACTOR_DRAW
  else if 14 <? rule50_count pos
  then SCALE_FACTOR_NORMAL * Z.quot (101 - rule50_count pos) 172
  else SCALE_FACTOR_NONE.

(** [Endgame<KRPKR>::operator()] (lines 413-505). *)
Definition Endgame_KRPKR (strongSide : Color) (pos : Position) : Z :=
  let weakSide := opp strongSide in
  (* Assume strongSide is white and the pawn is on files A-D *)
  let wksq := normalize pos strongSide (square pos strongSide KING) in
  let bksq := normalize pos strongSide (square pos weakSide KING) in
  let wrsq := normalize pos strongSide (square pos strongSide ROOK) in
  let wpsq := normalize pos strongSide (square pos strongSide PAWN) in
  let brsq := normalize pos strongSide (square pos weakSide ROOK) in
  let f := file_of wpsq in
  let r := rank_of wpsq in
  let queeningSq := make_square f RANK_8 in
  let tempo := if color_eqb (side_to_move pos) strongSide then 1 else 0 in
  if (r <=? RANK_5)
     && (distance bksq queeningSq <=? 1)
     && (wksq <=? SQ_H5)
     && ((rank_of brsq =? RANK_6) || ((r <=? RANK_3) && negb (rank_of wrsq =? RANK_6)))
  then SCALE_FACTOR_DRAW
  else if (r =? RANK_6)
          && (distance bksq queeningSq <=? 1)
          && (rank_of wksq + tempo <=? RANK_6)
          && ((rank_of brsq =? RANK_1) || ((tempo =? 0) && (3 <=? distance_file brsq wpsq)))
  then SCALE_FACTOR_DRAW
  else if (RANK_6 <=? r)
          && (bksq =? queeningSq)
          && (rank_of brsq =? RANK_1)
          && ((tempo =? 0) || (2 <=? distance wksq wpsq))
  then SCALE_FACTOR_DRAW
  else if (wpsq =? SQ_A7)
          && (wrsq =? SQ_A8)
          && ((bksq =? SQ_H7) || (bksq =? SQ_G7))
          && (file_of brsq =? FILE_A)
          && ((rank_of brsq <=? RANK_3) || (FILE_D <=? file_of wksq) || (rank_of wksq <=? RANK_5))
  then SCALE_FACTOR_DRAW
  else if (r <=? RANK_5)
          && (bksq =? wpsq + DELTA_N)
          && (2 <=? distance wksq wpsq - tempo)
          && (2 <=? distance wksq brsq - tempo)
  then SCALE_FACTOR_DRAW
  else if (r =? RANK_7)
          && negb (f =? FILE_A)
          && (file_of wrsq =? f)
          && negb (wrsq =? queeningSq)
          && (distance wksq queeningSq <? distance bksq queeningSq - 2 + tempo)
          && (distance wksq queeningSq <? distance bksq wrsq + tempo)
  then SCALE_FACTOR_MAX - 2 * distance wksq queeningSq
  else if negb (f =? FILE_A)
          && (file_of wrsq =? f)
          && (wrsq <? wpsq)
          && (distance wksq queeningSq <? distance bksq queeningSq - 2 + tempo)
          && (distance wksq (wpsq + DELTA_N) <? distance bksq (wpsq + DELTA_N) - 2 + tempo)
          && ((3 <=? distance bksq wrsq + tempo)
              || ((distance wksq queeningSq <? distance bksq wrsq + tempo)
                  && (distance wksq (wpsq + DELTA_N) <? distance bksq wrsq + tempo)))
  then SCALE_FACTOR_MAX - 8 * distance wpsq queeningSq - 2 * distance wksq queeningSq
  else if (r <=? RANK_4) && (wpsq <? bksq)
  then
    if file_of bksq =? file_of wpsq then 10
    else if (distance_file bksq wpsq =? 1) && (2 <? distance wksq bksq)
    then 24 - 2 * distance wksq bksq
    else SCALE_FACTOR_NONE
  else SCALE_FACTOR_NONE.

(** [Endgame<KRPKB>::operator()] (lines 507-549). *)
Definition Endgame_KRPKB (strongSide : Color) (pos : Position) : Z :=
  let weakSide := opp strongSide in
  (* Test for a rook pawn *)
  if nonzero (Z.land (pieces_pt pos PAWN) (Z.lor FileABB FileHBB))
  then
    let ksq := square pos weakSide KING in
    let bsq := square pos weakSide BISHOP in
    let psq := square pos strongSide PAWN in
    let rk := relative_rank strongSide psq in
    let push := pawn_push strongSide in
    if (rk =? RANK_5) && negb (opposite_colors bsq psq)
    then
      let d := distance (psq + 3 * push) ksq in
      if (d <=? 2) && negb ((d =? 0) && (ksq =? square pos strongSide KING + 2 * push))
      then 24
      else 48
    else if (rk =? RANK_6)
            && (distance (psq + 2 * push) ksq <=? 1)
            && nonzero (Z.land (bishop_pseudo_attacks bsq) (square_bb (psq + push)))
            && (2 <=? distance_file bsq psq)
    then 8
    else SCALE_FACTOR_NONE
  else SCALE_FACTOR_NONE.

(** [Endgame<KRPPKRP>::operator()] (lines 553-577). *)
Definition Endgame_KRPPKRP (strongSide : Color) (pos : Position) : Z :=
  let weakSide := opp strongSide in
  let wpsq1 := square_i pos strongSide PAWN 0 in
  let wpsq2 := square_i pos strongSide PAWN 1 in
  let bksq := square pos weakSide KING in
  (* Does the stronger side have a passed pawn? *)
  if pawn_passed pos strongSide wpsq1 || pawn_passed pos strongSide wpsq2
  then SCALE_FACTOR_NONE
  else
    let r := Z.max (relative_rank strongSide wpsq1) (relative_rank strongSide wpsq2) in
    if (distance_file bksq wpsq1 <=? 1)
       && (distance_file bksq wpsq2 <=? 1)
       && (r <? relative_rank strongSide bksq)
    then tbl KRPPKRPScaleFactors r
    else SCALE_FACTOR_NONE.

(** [Endgame<KPsK>::operator()] (lines 582-600). *)
Definition Endgame_KPsK (strongSide : Color) (pos : Position) : Z :=
  let weakSide := opp strongSide in
  let ksq := square pos weakSide KING in
  let pawns := pieces_cp pos strongSide PAWN in
  if (Z.land pawns (Z.lnot (in_front_bb weakSide (rank_of ksq))) =? 0)
     && negb (nonzero (Z.land pawns (Z.lnot FileABB))
              && nonzero (Z.land pawns (Z.lnot FileHBB)))
     && (distance_file ksq (lsb pawns) <=? 1)
  then SCALE_FACTOR_DRAW
  else SCALE_FACTOR_NONE.

(** [Endgame<KBPKB>::operator()] (lines 607-653). *)
Definition Endgame_KBPKB (strongSide : Color) (pos : Position) : Z :=
  let weakSide := opp strongSide in
  let pawnSq := square pos strongSide PAWN in
  let strongBishopSq := square pos strongSide BISHOP in
  let weakBishopSq := square pos weakSide BISHOP in
  let weakKingSq := square pos weakSide KING in
  (* Case 1: Defending king blocks the pawn, and cannot be driven away *)
  if (file_of weakKingSq =? file_of pawnSq)
     && (relative_rank strongSide pawnSq <? relative_rank strongSide weakKingSq)
     && (opposite_colors weakKingSq strongBishopSq
         || (relative_rank strongSide weakKingSq <=? RANK_6))
  then SCALE_FACTOR_DRAW
  (* Case 2: Opposite colored bishops *)
  else if opposite_colors strongBishopSq weakBishopSq
  then
    if relative_rank strongSide pawnSq <=? RANK_5 then SCALE_FACTOR_DRAW
    else
      let path := forward_bb strongSide pawnSq in
      if nonzero (Z.land path (pieces_cp pos weakSide KING)) then SCALE_FACTOR_DRAW
      else if nonzero (Z.land (attacks_from_bishop pos weakBishopSq) path)
              && (3 <=? distance weakBishopSq pawnSq)
      then SCALE_FACTOR_DRAW
      else SCALE_FACTOR_NONE
  else SCALE_FACTOR_NONE.

(** [Endgame<KBPPKB>::operator()] (lines 657-722). *)
Definition Endgame_KBPPKB (strongSide : Color) (pos : Position) : Z :=
  let weakSide := opp strongSide in
  let wbsq := square pos strongSide BISHOP in
  let bbsq := square pos weakSide BISHOP in
  if negb (opposite_colors wbsq bbsq) then SCALE_FACTOR_NONE
  else
    let ksq := square pos weakSide KING in
    let psq1 := square_i pos strongSide PAWN 0 in
    let psq2 := square_i pos strongSide PAWN 1 in
    let r1 := rank_of psq1 in
    let r2 := rank_of psq2 in
    let '(blockSq1, blockSq2) :=
      if relative_rank strongSide psq2 <? relative_rank strongSide psq1
      then (psq1 + pawn_push strongSide, make_square (file_of psq2) (rank_of psq1))
      else (psq2 + pawn_push strongSide, make_square (file_of psq1) (rank_of psq2)) in
    match distance_file psq1 psq2 with
    | 0 =>
        (* Both pawns are on the same file *)
        if (file_of ksq =? file_of blockSq1)
           && (relative_rank strongSide blockSq1 <=? relative_rank strongSide ksq)
           && opposite_colors ksq wbsq
        then SCALE_FACTOR_DRAW
        else SCALE_FACTOR_NONE
    | 1 =>
        (* Pawns on adjacent files *)
        if (ksq =? blockSq1)
           && opposite_colors ksq wbsq
           && ((bbsq =? blockSq2)
               || nonzero (Z.land (attacks_from_bishop pos blockSq2)
                                  (pieces_cp pos weakSide BISHOP))
               || (2 <=? distance_r r1 r2))
        then SCALE_FACTOR_DRAW
        else if (ksq =? blockSq2)
                && opposite_colors ksq wbsq
                && ((bbsq =? blockSq1)
                    || nonzero (Z.land (attacks_from_bishop pos blockSq1)
                                       (pieces_cp pos weakSide BISHOP)))
        then SCALE_FACTOR_DRAW
        else SCALE_FACTOR_NONE
    | _ =>
        (* The pawns are not on the same file or adjacent files *)
        SCALE_FACTOR_NONE
    end.

(** [Endgame<KBPKN>::operator()] (lines 728-745). *)
Definition Endgame_KBPKN (strongSide : Color) (pos : Position) : Z :=
  let weakSide := opp strongSide in
  let pawnSq := square pos strongSide PAWN in
  let strongBishopSq := square pos strongSide BISHOP in
  let weakKingSq := square pos weakSide KING in
  if (file_of weakKingSq =? file_of pawnSq)
     && (relative_rank strongSide pawnSq <? relative_rank strongSide weakKingSq)
     && (opposite_colors weakKingSq strongBishopSq
         || (relative_rank strongSide weakKingSq <=? RANK_6))
  then SCALE_FACTOR_DRAW
  else SCALE_FACTOR_NONE.

(** [Endgame<KNPK>::operator()] (lines 750-773). *)
Definition Endgame_KNPK (strongSide : Color) (pos : Position) : Z :=
  let weakSide := opp strongSide in
  (* Assume strongSide is white and the pawn is on files A-D *)
  let pawnSq := normalize pos strongSide (square pos strongSide PAWN) in
  let knightSq := normalize pos strongSide (square pos strongSide KNIGHT) in
  let strongKingSq := normalize pos strongSide (square pos strongSide KING) in
  let weakKingSq := normalize pos strongSide (square pos weakSide KING) in
  if pawnSq =? SQ_A7
  then
    if (weakKingSq =? SQ_A8) || (weakKingSq =? SQ_B7) then SCALE_FACTOR_DRAW
    else if ((weakKingSq =? SQ_C8) || (weakKingSq =? SQ_C7))
            && (strongKingSq =? SQ_A8)
            && Bool.eqb (color_eqb strongSide (side_to_move pos))
                        (negb (opposite_colors weakKingSq knightSq))
    then SCALE_FACTOR_DRAW
    else SCALE_FACTOR_NONE
  else SCALE_FACTOR_NONE.

(** [Endgame<KNPKB>::operator()] (lines 778-791). *)
Definition Endgame_KNPKB (strongSide : Color) (pos : Position) : Z :=
  let weakSide := opp strongSide in
  let pawnSq := square pos strongSide PAWN in
  let bishopSq := square pos weakSide BISHOP in
  let weakKingSq := square pos weakSide KING in
  if nonzero (Z.land (forward_bb strongSide pawnSq) (attacks_from_bishop pos bishopSq))
  then distance weakKingSq pawnSq
  else SCALE_FACTOR_NONE.

(** ** Material signature builder (lines 93-110) and registry (lines 117-139) *)

(** [std::string::find(ch, i)]: the first index [>= i] holding [ch]. *)
Fixpoint find_from (ch : ascii) (s : string) (i : nat) : option nat :=
  match s with
  | EmptyString => None
  | String a s' =>
      match i with
      | O => if Ascii.eqb a ch then Some O else option_map S (find_from ch s' O)
      | S i' => option_map S (find_from ch s' i')
      end
  end.

(** [tolower] on the ASCII letters. *)
Definition tolower (a : ascii) : ascii :=
  let n := nat_of_ascii a in
  if (65 <=? n)%nat && (n <=? 90)%nat then ascii_of_nat (n + 32) else a.

Fixpoint string_map (f : ascii -> ascii) (s : string) : string :=
  match s with
  | EmptyString => EmptyString
  | String a s' => String (f a) (string_map f s')
  end.

(** [char(8 - side.length() + '0')]. *)
Definition count_char (side : string) : ascii :=
  ascii_of_nat (8 - String.length side + 48).

(** How [key] fails: a failed [assert], or the [std::out_of_range] that
    [code.substr(std::string::npos)] throws when there is no second 'K'. *)
Inductive KeyError := AssertionFailure | OutOfRange.

Inductive KeyResult :=
  | KeyFen (fen : string)
  | KeyFail (e : KeyError).

(** [key(code, c)] up to its last step: the ad-hoc FEN whose
    [Position(fen, false, nullptr).material_key()] is the signature. *)
Definition key_fen (code : string) (c : Color) : KeyResult :=
  let len := String.length code in
  if negb ((0 <? len)%nat && (len <? 8)%nat) then KeyFail AssertionFailure
  else if negb (match String.get 0 code with
                | Some a => Ascii.eqb a "K"%char
                | None => false
                end)
  then KeyFail AssertionFailure
  else
    match find_from "K"%char code 1 with
    | None => KeyFail OutOfRange
    | Some i =>
        let weak := String.substring i (len - i) code in
        let strong := String.substring 0 i code in
        let '(side0, side1) :=
          match c with
          | WHITE => (string_map tolower weak, strong)
          | BLACK => (weak, string_map tolower strong)
          end in
        KeyFen (side0 ++ String (count_char side0) "/8/8/8/8/8/8/"
                ++ side1 ++ String (count_char side1) " w - - 0 10")
    end.

(** The codes registered by [Endgames::Endgames()]. *)
Definition registered_codes : list string :=
  ["KPK"; "KNNK"; "KRKP"; "KQKP"; "KNPK"; "KNPKB"; "KRPKR"; "KRPKB";
   "KBPKB"; "KBPKN"; "KBPPKB"; "KRPPKRP"]%string.

(** [Endgames::add] keys each code for both colors. *)
Definition registry_keys : list KeyResult :=
  flat_map (fun code => [key_fen code WHITE; key_fen code BLACK]) registered_codes.

Definition key_ok (r : KeyResult) : bool :=
  match r with KeyFen _ => true | KeyFail _ => false end.

(** ** Readings of the spec, to be compared with the code *)

(** [Endgame<KXK>] as the spec words the bishop-and-knight term: the corner
    table is flipped when the bishop stands on a dark square, both king squares
    reflected through the board centre ([63 - sq]). *)
Definition Endgame_KXK_claimed (legal_moves : Position -> nat) (strongSide : Color)
    (pos : Position) : Z :=
  let weakSide := opp strongSide in
  if kxk_stalemate legal_moves strongSide pos then VALUE_DRAW
  else if kxk_same_colored_bishops strongSide pos then VALUE_DRAW
  else
    let winnerKSq := square pos strongSide KING in
    let loserKSq := square pos weakSide KING in
    let result := VALUE_KNOWN_WIN
                  + Z.quot (non_pawn_material pos strongSide) 10
                  + tbl PushToEdges loserKSq
                  + tbl PushClose (distance winnerKSq loserKSq) in
    let result :=
      if (count pos strongSide BISHOP =? 1) && (count pos strongSide KNIGHT =? 1)
      then
        let bishopSq := square pos strongSide BISHOP in
        let loserKSq := if Z.testbit DarkSquares bishopSq then 63 - loserKSq else loserKSq in
        result + tbl PushToCorners loserKSq
      else result in
    if color_eqb strongSide (side_to_move pos) then result else - result.

(** The malformed codes as the spec lists them: no second 'K', an empty side
    after the split at the second 'K', or a length of 8 or more. *)
Definition malformed_claimed (code : string) : bool :=
  let len := String.length code in
  (8 <=? len)%nat
  || match find_from "K"%char code 1 with
     | None => true
     | Some i => (i =? 0)%nat || (len - i =? 0)%nat
     end.

(** ** Concrete positions *)

Definition pt_eqb (a b : PieceType) : bool :=
  match a, b with
  | PAWN, PAWN | KNIGHT, KNIGHT | BISHOP, BISHOP
  | ROOK, ROOK | QUEEN, QUEEN | KING, KING => true
  | _, _ => false
  end.

(** A position from the pieces of each side, listed in piece-list order. *)
Definition mk_pos (stm : Color) (r50 : Z) (white black : list (PieceType * Z)) : Position :=
  mkPosition stm r50
    (fun c pt => map snd (filter (fun e => pt_eqb (fst e) pt)
                                 (match c with WHITE => white | BLACK => black end))).

(** White Kc3, Bb1 (light square), Ng1; Black Ka1; White to move. *)
Definition pos_kbnk : Position :=
  mk_pos WHITE 0 [(KING, 18); (BISHOP, 1); (KNIGHT, 6)] [(KING, 0)].

(** White Ke1, Bc1, Be3 (both dark squares); Black Ke8; Black to move. *)
Definition pos_kbbk : Position :=
  mk_pos BLACK 0 [(KING, 4); (BISHOP, 2); (BISHOP, 20)] [(KING, 60)].

(** White Ke1, Qd1; Black Ke8, Rh8, Pa7; fifty-move counter [r50]. *)
Definition pos_kqkrps (r50 : Z) : Position :=
  mk_pos WHITE r50 [(KING, 4); (QUEEN, 3)] [(KING, 60); (ROOK, 63); (PAWN, 48)].

(** White Ka1, Ra2, Pe4, Pf3; Black Ke6, Rh8, Pe5; White to move. *)
Definition pos_krppkrp : Position :=
  mk_pos WHITE 0 [(KING, 0); (ROOK, 8); (PAWN, 28); (PAWN, 21)]
                 [(KING, 44); (ROOK, 63); (PAWN, 36)].

(** White Ke2, Pe5; Black Ke8; White to move. *)
Definition pos_kpk : Position :=
  mk_pos WHITE 0 [(KING, 12); (PAWN, 36)] [(KING, 60)].

(** A win/draw table standing in for [Bitbases::probe] in examples. *)
Definition probe_all_win (wksq psq bksq : Z) (us : Color) : bool := true.

(** A scale factor in the evaluators' range: [SCALE_FACTOR_NONE] ("no
    scaling") or a factor in [0, SCALE_FACTOR_MAX]. *)
Definition scale_in_range (sf : Z) : Prop :=
  sf = SCALE_FACTOR_NONE \/ 0 <= sf <= SCALE_FACTOR_MAX.

(** [pos_valid] as a check. *)
Definition pos_validb (pos : Position) : bool :=
  forallb (fun c => forallb (fun pt => forallb (fun s => (0 <=? s) && (s <? 64))
                                               (piece_list pos c pt)) all_types)
          [WHITE; BLACK].

(** ** Reflected positions *)

(** [Position::flip()] (position.cpp, not among the sources): the board
    turned upside down with the colors of the pieces swapped. *)
Definition flip_pos (pos : Position) : Position :=
  mkPosition (opp (side_to_move pos)) (rule50_count pos)
             (fun c pt => map sq_flip (piece_list pos (opp c) pt)).

(** The board reflected through the line between the d- and e-files. *)
Definition mirror_pos (pos : Position) : Position :=
  mkPosition (side_to_move pos) (rule50_count pos)
             (fun c pt => map sq_mirror (piece_list pos c pt)).

(** White Ke1, Qd1, Rh1, Bc1, Nb1, Pc2; Black Ke8, Qd8, Rh8, Bf8, Ng8, Pd7;
    White to move. *)
Definition pos_sym : Position :=
  mk_pos WHITE 3 [(KING, 4); (QUEEN, 3); (ROOK, 7); (BISHOP, 2); (KNIGHT, 1); (PAWN, 10)]
                 [(KING, 60); (QUEEN, 59); (ROOK, 63); (BISHOP, 61); (KNIGHT, 62); (PAWN, 51)].

(** White Kd4, Ra8; Black Kf3, Pe4: the strong king level with the pawn on
    the neighbouring file toward the a-file. *)
Definition pos_krkp_level : Position :=
  mk_pos WHITE 0 [(KING, 27); (ROOK, 56)] [(KING, 21); (PAWN, 28)].

(** ** Transposition table (tt.h) *)

(** [first_entry(key)]: the cluster index
    [(uint32_t(key) * uint64_t(clusterCount)) >> 32], the product taken in
    64-bit unsigned arithmetic. *)
Definition first_entry_index (key clusterCount : Z) : Z :=
  Z.shiftr ((key mod 2 ^ 32) * clusterCount mod 2 ^ 64) 32.

(** [new_search()]: [generation32 += 8] on a [uint32_t]. *)
Definition new_search (generation32 : Z) : Z := (generation32 + 8) mod 2 ^ 32.

(** ** Material of the forged FENs *)

Fixpoint count_ascii (a : ascii) (s : string) : nat :=
  match s with
  | EmptyString => O
  | String b s' => (if Ascii.eqb a b then 1 else 0) + count_ascii a s'
  end%nat.

(** The piece letters of a FEN; the other fields of the forged FENs
    ([" w - - 0 10"]) hold none of them. *)
Definition piece_letters : list ascii :=
  ["P"; "N"; "B"; "R"; "Q"; "K"; "p"; "n"; "b"; "r"; "q"; "k"]%char.

(** The number of pieces of each color and type a keyed FEN sets up, from
    which [Position::material_key()] is computed. *)
Definition fen_material (r : KeyResult) : list nat :=
  match r with
  | KeyFen fen => map (fun a => count_ascii a fen) piece_letters
  | KeyFail _ => []
  end.

Fixpoint nodupb {A} (eqb : A -> A -> bool) (l : list A) : bool :=
  match l with
  | [] => true
  | x :: l' => negb (existsb (eqb x) l') && nodupb eqb l'
  end.

Definition list_nat_eqb (a b : list nat) : bool :=
  if list_eq_dec Nat.eq_dec a b then true else false.

(** * Properties *)

(** ** Squares and tables *)

Lemma In_all_squares (s : Z) : valid_sq s -> In s all_squares.
Proof.
  intros [H0 H1]. unfold all_squares. apply in_map_iff.
  exists (Z.to_nat s). split; [lia | apply in_seq; lia].
Qed.

(** A boolean property checked on the 64 squares holds on every square. *)
Lemma forall_squares (P : Z -> bool) :
  forallb P all_squares = true -> forall s, valid_sq s -> P s = true.
Proof.
  intros H s Hs. rewrite forallb_forall in H. apply H, In_all_squares, Hs.
Qed.

Lemma square_valid (pos : Position) (c : Color) (pt : PieceType) :
  pos_valid pos -> valid_sq (square pos c pt).
Proof.
  intros Hv. unfold square. destruct (piece_list pos c pt) as [|s l] eqn:E.
  - unfold valid_sq; simpl; lia.
  - apply (Hv c pt). rewrite E. now left.
Qed.

Lemma sq_mirror_valid (s : Z) : valid_sq s -> valid_sq (sq_mirror s).
Proof.
  intros Hs. pose proof (forall_squares
    (fun s => (0 <=? sq_mirror s) && (sq_mirror s <? 64)) eq_refl s Hs) as H.
  apply andb_prop in H as [H1 H2]. apply Z.leb_le in H1. apply Z.ltb_lt in H2.
  unfold valid_sq; lia.
Qed.

Lemma sq_flip_valid (s : Z) : valid_sq s -> valid_sq (sq_flip s).
Proof.
  intros Hs. pose proof (forall_squares
    (fun s => (0 <=? sq_flip s) && (sq_flip s <? 64)) eq_refl s Hs) as H.
  apply andb_prop in H as [H1 H2]. apply Z.leb_le in H1. apply Z.ltb_lt in H2.
  unfold valid_sq; lia.
Qed.

Lemma normalize_valid (pos : Position) (c : Color) (s : Z) :
  valid_sq s -> valid_sq (normalize pos c s).
Proof.
  intros Hs. unfold normalize.
  destruct (FILE_E <=? file_of (square pos c PAWN));
    destruct c; auto using sq_mirror_valid, sq_flip_valid.
Qed.

Lemma rank_of_bounds (s : Z) : valid_sq s -> 0 <= rank_of s <= 7.
Proof.
  intros Hs. unfold rank_of. rewrite Z.shiftr_div_pow2 by lia.
  change (2 ^ 3) with 8. unfold valid_sq in Hs.
  split; [apply Z.div_pos | apply Z.lt_succ_r, Z.div_lt_upper_bound]; lia.
Qed.

Lemma file_of_bounds (s : Z) : 0 <= file_of s <= 7.
Proof.
  unfold file_of. pose proof (Z.land_ones s 3 ltac:(lia)) as H.
  change (Z.ones 3) with 7 in H. change (2 ^ 3) with 8 in H.
  pose proof (Z.mod_pos_bound s 8). lia.
Qed.

Lemma distance_bounds (x y : Z) :
  valid_sq x -> valid_sq y -> 0 <= distance x y <= 7.
Proof.
  intros Hx Hy. unfold distance, distance_file, distance_rank.
  pose proof (file_of_bounds x). pose proof (file_of_bounds y).
  pose proof (rank_of_bounds x Hx). pose proof (rank_of_bounds y Hy). lia.
Qed.

(** Every entry of a table satisfies [P], and so does its default. *)
Lemma tbl_forall (P : Z -> Prop) (t : list Z) (i : Z) :
  Forall P t -> P 0 -> P (tbl t i).
Proof.
  intros Ht H0. unfold tbl.
  destruct (nth_in_or_default (Z.to_nat i) t 0) as [Hin | ->]; [|exact H0].
  rewrite Forall_forall in Ht. now apply Ht.
Qed.

Lemma PushToEdges_ge_80 (s : Z) : valid_sq s -> 80 <= tbl PushToEdges s.
Proof.
  intros Hs. apply Z.leb_le.
  exact (forall_squares (fun s => 80 <=? tbl PushToEdges s) eq_refl s Hs).
Qed.

Lemma PushToCorners_ge (i : Z) : -50 <= tbl PushToCorners i.
Proof.
  apply tbl_forall; [|lia].
  apply Forall_forall. intros x Hx. apply Z.leb_le. revert x Hx.
  apply forallb_forall. reflexivity.
Qed.

Lemma PushClose_ge (i : Z) : 0 <= tbl PushClose i.
Proof.
  apply tbl_forall; [|lia].
  repeat constructor; discriminate.
Qed.

(** ** Square normalizer *)

Lemma lxor_twice (s k : Z) : Z.lxor (Z.lxor s k) k = s.
Proof. rewrite Z.lxor_assoc, Z.lxor_nilpotent. apply Z.lxor_0_r. Qed.

(** Claim C6, as stated, fails: the file mirror [sq ^ 7] is not idempotent
    (mirroring A1 twice gives A1 back, not H1), and neither is the color flip. *)
Lemma C6_mirror_not_idempotent :
  sq_mirror (sq_mirror SQ_A1) <> sq_mirror SQ_A1
  /\ sq_flip (sq_flip SQ_A1) <> sq_flip SQ_A1.
Proof. split; vm_compute; discriminate. Qed.

(** Claim C6 (amended): the file mirror [sq ^ 7] and the color flip
    [~sq = sq ^ 56] are each self-inverse, and [normalize] applied twice with
    the same position and strong side gives back the square. *)
Theorem C6_normalize_involution :
  (forall s, sq_mirror (sq_mirror s) = s)
  /\ (forall s, sq_flip (sq_flip s) = s)
  /\ (forall pos strongSide s, normalize pos strongSide (normalize pos strongSide s) = s).
Proof.
  split; [intro s; apply lxor_twice|].
  split; [intro s; apply lxor_twice|].
  intros pos strongSide s. unfold normalize, sq_mirror, sq_flip.
  destruct (FILE_E <=? file_of (square pos strongSide PAWN)), strongSide;
    apply Z.bits_inj'; intros n _; rewrite ?Z.lxor_spec;
    destruct (Z.testbit s n), (Z.testbit 7 n), (Z.testbit SQ_A8 n); reflexivity.
Qed.

(** ** PushClose *)

(** Claim C7, as stated, fails: [PushClose[1] = 0] is below [PushClose[2] = 400]
    although distance 1 is the smaller one. *)
Lemma C7_PushClose_not_monotone :
  ~ (forall d1 d2, 0 <= d1 < d2 -> d2 <= 7 -> tbl PushClose d2 <= tbl PushClose d1).
Proof.
  intros H. specialize (H 1 2 ltac:(lia) ltac:(lia)). vm_compute in H. now apply H.
Qed.

(** Claim C7 (amended): over the distances 2..7 that two kings of a legal
    position can be apart, [PushClose] strictly decreases as the distance
    grows; the entries for the distances 0 and 1 are both 0. *)
Theorem C7_PushClose_decreasing :
  (forall d1 d2, 2 <= d1 < d2 -> d2 <= 7 -> tbl PushClose d2 < tbl PushClose d1)
  /\ tbl PushClose 0 = 0 /\ tbl PushClose 1 = 0.
Proof.
  split; [|split; reflexivity].
  intros d1 d2 H1 H2.
  assert (d1 = 2 \/ d1 = 3 \/ d1 = 4 \/ d1 = 5 \/ d1 = 6) as Hd1 by lia.
  assert (d2 = 3 \/ d2 = 4 \/ d2 = 5 \/ d2 = 6 \/ d2 = 7) as Hd2 by lia.
  destruct Hd1 as [->|[->|[->|[->| ->]]]], Hd2 as [->|[->|[->|[->| ->]]]];
    vm_compute; first [reflexivity | lia].
Qed.

Lemma pos_validb_spec (pos : Position) : pos_validb pos = true -> pos_valid pos.
Proof.
  unfold pos_validb. intros H c pt s Hs.
  rewrite forallb_forall in H. specialize (H c ltac:(destruct c; simpl; tauto)).
  rewrite forallb_forall in H. specialize (H pt ltac:(destruct pt; simpl; tauto)).
  rewrite forallb_forall in H. specialize (H s Hs).
  apply andb_prop in H as [H1 H2]. apply Z.leb_le in H1. apply Z.ltb_lt in H2.
  unfold valid_sq; lia.
Qed.

(** ** Bitboards of piece lists *)

Lemma testbit_square_bb (s n : Z) :
  0 <= s -> Z.testbit (square_bb s) n = (s =? n).
Proof.
  intros Hs. unfold square_bb. rewrite Z.shiftl_1_l. now apply Z.pow2_bits_eqb.
Qed.

(** A bitboard of pieces misses a mask holding none of their squares. *)
Lemma bb_of_list_land_zero (l : list Z) (m : Z) :
  (forall s, In s l -> 0 <= s /\ Z.testbit m s = false) ->
  Z.land (bb_of_list l) m = 0.
Proof.
  induction l as [|a l IH]; intros H.
  - apply Z.land_0_l.
  - change (bb_of_list (a :: l)) with (Z.lor (square_bb a) (bb_of_list l)).
    rewrite Z.land_lor_distr_l, IH by (intros s Hs; apply H; now right).
    rewrite Z.lor_0_r. destruct (H a (or_introl eq_refl)) as [Ha Hm].
    apply Z.bits_inj'. intros n Hn.
    rewrite Z.land_spec, testbit_square_bb, Z.bits_0 by exact Ha.
    destruct (Z.eqb_spec a n) as [<-|]; [rewrite Hm|]; reflexivity.
Qed.

(** ** KXK *)

(** [opposite_colors sq SQ_A1] holds exactly on the light squares. *)
Lemma opposite_colors_A1 (s : Z) :
  valid_sq s -> opposite_colors s SQ_A1 = negb (Z.testbit DarkSquares s).
Proof.
  intros Hs. apply Bool.eqb_prop.
  exact (forall_squares
    (fun s => Bool.eqb (opposite_colors s SQ_A1) (negb (Z.testbit DarkSquares s)))
    eq_refl s Hs).
Qed.

Lemma non_pawn_material_nonneg (pos : Position) (c : Color) :
  0 <= non_pawn_material pos c.
Proof.
  unfold non_pawn_material, count, KnightValueMg, BishopValueMg, RookValueMg, QueenValueMg.
  lia.
Qed.

(** Claim C4: with two or more bishops, all on dark squares or all on light
    squares, and no pawn, knight, rook or queen, [Endgame<KXK>] takes one of
    its two drawn short-circuits, before any table term, and returns
    [VALUE_DRAW], whatever the kings' squares and the number of bishops. *)
Theorem C4_KXK_same_colored_bishops_draw (legal_moves : Position -> nat)
    (strongSide : Color) (pos : Position) :
  pos_valid pos ->
  2 <= count pos strongSide BISHOP ->
  (   (forall s, In s (piece_list pos strongSide BISHOP) -> Z.testbit DarkSquares s = true)
   \/ (forall s, In s (piece_list pos strongSide BISHOP) -> Z.testbit DarkSquares s = false)) ->
  count pos strongSide PAWN = 0 ->
  count pos strongSide KNIGHT = 0 ->
  count pos strongSide ROOK = 0 ->
  count pos strongSide QUEEN = 0 ->
  (kxk_stalemate legal_moves strongSide pos = true
   \/ kxk_same_colored_bishops strongSide pos = true)
  /\ Endgame_KXK legal_moves strongSide pos = VALUE_DRAW.
Proof.
  intros Hv Hb Hcol Hp Hn Hr Hq.
  assert (Hsame : kxk_same_colored_bishops strongSide pos = true).
  { unfold kxk_same_colored_bishops. rewrite Hp, Hn, Hr, Hq.
    assert (Hlt : (1 <? count pos strongSide BISHOP) = true) by (apply Z.ltb_lt; lia).
    rewrite Hlt. simpl. unfold pieces_cp.
    destruct Hcol as [Hd | Hl].
    - rewrite (bb_of_list_land_zero _ (Z.lnot DarkSquares)).
      + now rewrite andb_false_r.
      + intros s Hs. destruct (Hv _ _ _ Hs) as [H0 _]. split; [exact H0|].
        rewrite Z.lnot_spec, Hd by assumption. reflexivity.
    - rewrite (bb_of_list_land_zero _ DarkSquares).
      + reflexivity.
      + intros s Hs. destruct (Hv _ _ _ Hs) as [H0 _]. split; [exact H0|]. now apply Hl. }
  split; [now right|].
  unfold Endgame_KXK. rewrite Hsame.
  destruct (kxk_stalemate legal_moves strongSide pos); reflexivity.
Qed.

(** Claim C10: when neither drawn short-circuit fires, the magnitude of the
    [KXK] value exceeds [VALUE_KNOWN_WIN] for every placement of the kings and
    every material, and the value is positive exactly when the strong side is
    to move. *)
Theorem C10_KXK_beyond_known_win (legal_moves : Position -> nat)
    (strongSide : Color) (pos : Position) :
  pos_valid pos ->
  kxk_stalemate legal_moves strongSide pos = false ->
  kxk_same_colored_bishops strongSide pos = false ->
  VALUE_KNOWN_WIN < Z.abs (Endgame_KXK legal_moves strongSide pos)
  /\ (0 < Endgame_KXK legal_moves strongSide pos <-> strongSide = side_to_move pos).
Proof.
  intros Hv Hs Hb. unfold Endgame_KXK. rewrite Hs, Hb. cbv zeta.
  pose proof (Z.quot_pos _ 10 (non_pawn_material_nonneg pos strongSide) ltac:(lia)) as Hm.
  pose proof (PushToEdges_ge_80 _ (square_valid pos (opp strongSide) KING Hv)) as He.
  pose proof (PushClose_ge (distance (square pos strongSide KING)
                                     (square pos (opp strongSide) KING))) as Hc.
  set (R := VALUE_KNOWN_WIN + _ + _ + _).
  assert (HR : forall k, -50 <= k -> VALUE_KNOWN_WIN < R + k)
    by (intros k Hk; unfold R, VALUE_KNOWN_WIN in *; lia).
  assert (HR0 : VALUE_KNOWN_WIN < R) by (rewrite <- (Z.add_0_r R); apply HR; lia).
  assert (Hfin : forall T, VALUE_KNOWN_WIN < T ->
            VALUE_KNOWN_WIN < Z.abs (if color_eqb strongSide (side_to_move pos) then T else - T)
            /\ (0 < (if color_eqb strongSide (side_to_move pos) then T else - T)
                <-> strongSide = side_to_move pos)).
  { intros T HT. unfold VALUE_KNOWN_WIN in *.
    destruct strongSide, (side_to_move pos); simpl;
      (split; [lia | split; intros; first [reflexivity | lia | discriminate]]). }
  apply Hfin.
  destruct ((count pos strongSide BISHOP =? 1) && (count pos strongSide KNIGHT =? 1));
    [|exact HR0].
  destruct (opposite_colors (square pos strongSide BISHOP) SQ_A1);
    apply HR, PushToCorners_ge.
Qed.

(** Claim C3, as stated, fails: with the bishop on the light square b1 the code
    flips the corner table (the value uses [PushToCorners[~a1] = 100]) while
    the claim flips it only for a dark-squared bishop, through the board
    centre, and so keeps [PushToCorners[a1] = 800]. *)
Lemma C3_light_bishop_flips :
  Endgame_KXK (fun _ => 1%nat) WHITE pos_kbnk = 11065
  /\ Endgame_KXK_claimed (fun _ => 1%nat) WHITE pos_kbnk = 11765.
Proof. split; vm_compute; reflexivity. Qed.

(** Claim C3 (amended): when neither drawn short-circuit fires, [KXK] adds the
    [PushToCorners] term exactly when the strong side has exactly one bishop
    and one knight; the loser king's square is then looked up as is when the
    bishop stands on a dark square (corners a1/h8) and vertically flipped
    ([~sq = sq ^ 56]) when it stands on a light square (corners a8/h1). *)
Theorem C3_KXK_corner_term (legal_moves : Position -> nat)
    (strongSide : Color) (pos : Position) :
  pos_valid pos ->
  kxk_stalemate legal_moves strongSide pos = false ->
  kxk_same_colored_bishops strongSide pos = false ->
  let winnerKSq := square pos strongSide KING in
  let loserKSq := square pos (opp strongSide) KING in
  let bishopSq := square pos strongSide BISHOP in
  let result :=
      VALUE_KNOWN_WIN + Z.quot (non_pawn_material pos strongSide) 10
      + tbl PushToEdges loserKSq + tbl PushClose (distance winnerKSq loserKSq)
      + (if (count pos strongSide BISHOP =? 1) && (count pos strongSide KNIGHT =? 1)
         then tbl PushToCorners (if Z.testbit DarkSquares bishopSq
                                 then loserKSq else sq_flip loserKSq)
         else 0) in
  Endgame_KXK legal_moves strongSide pos
  = if color_eqb strongSide (side_to_move pos) then result else - result.
Proof.
  intros Hv Hs Hb. cbv zeta. unfold Endgame_KXK. rewrite Hs, Hb. cbv zeta.
  destruct ((count pos strongSide BISHOP =? 1) && (count pos strongSide KNIGHT =? 1)).
  - rewrite (opposite_colors_A1 _ (square_valid pos strongSide BISHOP Hv)).
    destruct (Z.testbit DarkSquares (square pos strongSide BISHOP)); reflexivity.
  - rewrite Z.add_0_r. reflexivity.
Qed.

(** ** KPK *)

(** Claim C5: [Endgame<KPK>] returns [VALUE_DRAW] exactly when the bitbase,
    queried with the normalized squares and side to move, reports no win;
    otherwise it returns [VALUE_KNOWN_WIN - PawnValueEg / 4 * (7 - rank)] of
    the normalized pawn, negated when the weak side is to move, a magnitude
    strictly increasing in the pawn's rank. *)
Theorem C5_KPK_oracle (probe : Z -> Z -> Z -> Color -> bool)
    (strongSide : Color) (pos : Position) :
  pos_valid pos ->
  let wksq := normalize pos strongSide (square pos strongSide KING) in
  let bksq := normalize pos strongSide (square pos (opp strongSide) KING) in
  let psq := normalize pos strongSide (square pos strongSide PAWN) in
  let us := if color_eqb strongSide (side_to_move pos) then WHITE else BLACK in
  let magnitude (r : Z) := VALUE_KNOWN_WIN - Z.quot PawnValueEg 4 * (7 - r) in
  (Endgame_KPK probe strongSide pos = VALUE_DRAW <-> probe wksq psq bksq us = false)
  /\ (probe wksq psq bksq us = true ->
      Endgame_KPK probe strongSide pos
      = if color_eqb strongSide (side_to_move pos)
        then magnitude (rank_of psq) else - magnitude (rank_of psq))
  /\ (forall r1 r2, r1 < r2 -> magnitude r1 < magnitude r2).
Proof.
  intros Hv. cbv zeta.
  pose proof (rank_of_bounds _ (normalize_valid pos strongSide _
                (square_valid pos strongSide PAWN Hv))) as Hr.
  unfold Endgame_KPK. cbv zeta.
  set (p := probe _ _ _ _).
  set (r := rank_of _) in *.
  change (Z.quot PawnValueEg 4) with 64. unfold VALUE_KNOWN_WIN, VALUE_DRAW.
  split; [|split].
  - destruct p; cbn [negb]; [|tauto].
    destruct (color_eqb strongSide (side_to_move pos)); split; intros; try lia; discriminate.
  - intros ->. reflexivity.
  - intros r1 r2 H. lia.
Qed.

(** ** KRPPKRP *)

(** Claim C9: when all strong pawns stand on relative ranks 2 to 7 and a pawn
    on relative rank 7 is passed, the table branch of [Endgame<KRPPKRP>]
    (no passed pawn, defending king within one file of both pawns and ahead of
    both) reads [KRPPKRPScaleFactors] at an index [r] with
    [RANK_1 < r < RANK_7], and so returns one of 9, 10, 14, 21, 44. *)
Theorem C9_KRPPKRP_table_index (strongSide : Color) (pos : Position) :
  count pos strongSide PAWN = 2 ->
  (forall s, In s (piece_list pos strongSide PAWN) ->
     RANK_2 <= relative_rank strongSide s <= RANK_7) ->
  (forall s, In s (piece_list pos strongSide PAWN) ->
     relative_rank strongSide s = RANK_7 -> pawn_passed pos strongSide s = true) ->
  let wpsq1 := square_i pos strongSide PAWN 0 in
  let wpsq2 := square_i pos strongSide PAWN 1 in
  let bksq := square pos (opp strongSide) KING in
  let r := Z.max (relative_rank strongSide wpsq1) (relative_rank strongSide wpsq2) in
  pawn_passed pos strongSide wpsq1 = false ->
  pawn_passed pos strongSide wpsq2 = false ->
  distance_file bksq wpsq1 <= 1 ->
  distance_file bksq wpsq2 <= 1 ->
  r < relative_rank strongSide bksq ->
  RANK_1 < r < RANK_7
  /\ Endgame_KRPPKRP strongSide pos = tbl KRPPKRPScaleFactors r
  /\ In (Endgame_KRPPKRP strongSide pos) [9; 10; 14; 21; 44].
Proof.
  intros Hc Hrange Hpass. cbv zeta. intros Hp1 Hp2 Hf1 Hf2 Hk.
  unfold count in Hc.
  destruct (piece_list pos strongSide PAWN) as [|s1 [|s2 [|s3 l]]] eqn:E;
    simpl in Hc; try lia.
  assert (Hs1 : square_i pos strongSide PAWN 0 = s1) by (unfold square_i; now rewrite E).
  assert (Hs2 : square_i pos strongSide PAWN 1 = s2) by (unfold square_i; now rewrite E).
  rewrite Hs1, Hs2 in *.
  assert (I1 : In s1 [s1; s2]) by (simpl; tauto).
  assert (I2 : In s2 [s1; s2]) by (simpl; tauto).
  assert (R1 : relative_rank strongSide s1 <> RANK_7)
    by (intro H; rewrite (Hpass s1 I1 H) in Hp1; discriminate).
  assert (R2 : relative_rank strongSide s2 <> RANK_7)
    by (intro H; rewrite (Hpass s2 I2 H) in Hp2; discriminate).
  pose proof (Hrange s1 I1) as B1. pose proof (Hrange s2 I2) as B2.
  unfold RANK_1, RANK_2, RANK_7 in *.
  assert (Hr : 1 <= Z.max (relative_rank strongSide s1) (relative_rank strongSide s2) <= 5)
    by lia.
  assert (Hval : Endgame_KRPPKRP strongSide pos
                 = tbl KRPPKRPScaleFactors
                     (Z.max (relative_rank strongSide s1) (relative_rank strongSide s2))).
  { unfold Endgame_KRPPKRP. rewrite Hs1, Hs2, Hp1, Hp2. simpl.
    apply Z.leb_le in Hf1. apply Z.leb_le in Hf2. apply Z.ltb_lt in Hk.
    rewrite Hf1, Hf2, Hk. reflexivity. }
  split; [lia|]. split; [exact Hval|]. rewrite Hval.
  set (m := Z.max _ _) in *.
  assert (Hm : m = 1 \/ m = 2 \/ m = 3 \/ m = 4 \/ m = 5) by lia.
  destruct Hm as [->|[->|[->|[->| ->]]]]; vm_compute; tauto.
Qed.

(** ** KQKRPs *)

Lemma KQKRPs_unfold (strongSide : Color) (pos : Position) :
  kqkrps_fortress strongSide pos = false ->
  Endgame_KQKRPs strongSide pos
  = if 14 <? rule50_count pos
    then SCALE_FACTOR_NORMAL * Z.quot (101 - rule50_count pos) 172
    else SCALE_FACTOR_NONE.
Proof. intros H. unfold Endgame_KQKRPs. now rewrite H. Qed.

(** Claim C2 (code bug): outside the fortress, [Endgame<KQKRPs>] returns
    [SCALE_FACTOR_NONE] up to a fifty-move counter of 14 and
    [SCALE_FACTOR_NORMAL * ((101 - rule50) / 172)] above it; but the integer
    quotient is 0 for every counter from 15 to 101, so the factor is the
    constant [SCALE_FACTOR_DRAW] there, not a decreasing function. *)
Theorem C2_KQKRPs_rule50_truncated (strongSide : Color) (pos : Position) :
  kqkrps_fortress strongSide pos = false ->
  (rule50_count pos <= 14 -> Endgame_KQKRPs strongSide pos = SCALE_FACTOR_NONE)
  /\ (14 < rule50_count pos ->
      Endgame_KQKRPs strongSide pos
      = SCALE_FACTOR_NORMAL * Z.quot (101 - rule50_count pos) 172)
  /\ (14 < rule50_count pos <= 101 ->
      Endgame_KQKRPs strongSide pos = SCALE_FACTOR_DRAW).
Proof.
  intros Hf. rewrite (KQKRPs_unfold _ _ Hf).
  split; [|split]; intros Hr.
  - replace (14 <? rule50_count pos) with false by (symmetry; apply Z.ltb_ge; lia).
    reflexivity.
  - now replace (14 <? rule50_count pos) with true by (symmetry; apply Z.ltb_lt; lia).
  - replace (14 <? rule50_count pos) with true by (symmetry; apply Z.ltb_lt; lia).
    rewrite Z.quot_small by lia. reflexivity.
Qed.

(** Claim C1 (code bug): at a fifty-move counter of 300, which a FEN can set,
    [Endgame<KQKRPs>] returns the negative factor -64. *)
Theorem C1_KQKRPs_negative_factor :
  Endgame_KQKRPs WHITE (pos_kqkrps 300) = -64.
Proof. vm_compute. reflexivity. Qed.

(** ** Range of the scale evaluators *)

Ltac split_branches :=
  repeat match goal with
         | |- context [if ?c then _ else _] => destruct c
         end.

Lemma draw_in_range : scale_in_range SCALE_FACTOR_DRAW.
Proof. right. unfold SCALE_FACTOR_DRAW, SCALE_FACTOR_MAX. lia. Qed.

Lemma none_in_range : scale_in_range SCALE_FACTOR_NONE.
Proof. now left. Qed.

Lemma const_in_range (k : Z) : 0 <= k <= SCALE_FACTOR_MAX -> scale_in_range k.
Proof. now right. Qed.

Create HintDb scale.
#[local] Hint Resolve draw_in_range none_in_range : scale.

Lemma make_square_rank8_valid (f : Z) : valid_sq (make_square (file_of f) RANK_8).
Proof.
  pose proof (file_of_bounds f). unfold make_square, valid_sq.
  change (Z.shiftl RANK_8 3) with 56. lia.
Qed.

Lemma KBPsK_range (strongSide : Color) (pos : Position) :
  scale_in_range (Endgame_KBPsK strongSide pos).
Proof. unfold Endgame_KBPsK. cbv zeta. split_branches; auto with scale. Qed.

Lemma KRPKR_range (strongSide : Color) (pos : Position) :
  pos_valid pos -> scale_in_range (Endgame_KRPKR strongSide pos).
Proof.
  intros Hv. unfold Endgame_KRPKR. cbv zeta.
  pose proof (fun c pt => normalize_valid pos strongSide _ (square_valid pos c pt Hv)) as N.
  pose proof (make_square_rank8_valid
                (normalize pos strongSide (square pos strongSide PAWN))) as Q.
  pose proof (distance_bounds _ _ (N strongSide KING) Q).
  pose proof (distance_bounds _ _ (N strongSide PAWN) Q).
  pose proof (distance_bounds _ _ (N strongSide KING) (N (opp strongSide) KING)).
  split_branches; auto with scale; apply const_in_range;
    unfold SCALE_FACTOR_MAX; lia.
Qed.

Lemma KRPKB_range (strongSide : Color) (pos : Position) :
  scale_in_range (Endgame_KRPKB strongSide pos).
Proof.
  unfold Endgame_KRPKB. cbv zeta.
  split_branches; auto with scale; apply const_in_range; unfold SCALE_FACTOR_MAX; lia.
Qed.

Lemma KRPPKRP_range (strongSide : Color) (pos : Position) :
  scale_in_range (Endgame_KRPPKRP strongSide pos).
Proof.
  unfold Endgame_KRPPKRP. cbv zeta. split_branches; auto with scale.
  right. apply tbl_forall; [|unfold SCALE_FACTOR_MAX; lia].
  repeat constructor; unfold SCALE_FACTOR_MAX; lia.
Qed.

Lemma KPsK_range (strongSide : Color) (pos : Position) :
  scale_in_range (Endgame_KPsK strongSide pos).
Proof. unfold Endgame_KPsK. cbv zeta. split_branches; auto with scale. Qed.

Lemma KBPKB_range (strongSide : Color) (pos : Position) :
  scale_in_range (Endgame_KBPKB strongSide pos).
Proof. unfold Endgame_KBPKB. cbv zeta. split_branches; auto with scale. Qed.

Lemma KBPPKB_range (strongSide : Color) (pos : Position) :
  scale_in_range (Endgame_KBPPKB strongSide pos).
Proof.
  unfold Endgame_KBPPKB. cbv zeta.
  destruct (negb _); [auto with scale|].
  destruct (_ <? _); cbv beta iota;
    destruct (distance_file _ _) as [|[p|p|]|]; split_branches; auto with scale.
Qed.

Lemma KBPKN_range (strongSide : Color) (pos : Position) :
  scale_in_range (Endgame_KBPKN strongSide pos).
Proof. unfold Endgame_KBPKN. cbv zeta. split_branches; auto with scale. Qed.

Lemma KNPK_range (strongSide : Color) (pos : Position) :
  scale_in_range (Endgame_KNPK strongSide pos).
Proof. unfold Endgame_KNPK. cbv zeta. split_branches; auto with scale. Qed.

Lemma KNPKB_range (strongSide : Color) (pos : Position) :
  pos_valid pos -> scale_in_range (Endgame_KNPKB strongSide pos).
Proof.
  intros Hv. unfold Endgame_KNPKB. cbv zeta. split_branches; auto with scale.
  pose proof (distance_bounds _ _ (square_valid pos (opp strongSide) KING Hv)
                                  (square_valid pos strongSide PAWN Hv)).
  apply const_in_range. unfold SCALE_FACTOR_MAX. lia.
Qed.

Lemma KQKRPs_range (strongSide : Color) (pos : Position) :
  rule50_count pos <= 272 -> scale_in_range (Endgame_KQKRPs strongSide pos).
Proof.
  intros Hr. unfold Endgame_KQKRPs.
  destruct (kqkrps_fortress strongSide pos); [auto with scale|].
  destruct (Z.ltb_spec 14 (rule50_count pos)); [|auto with scale].
  assert (Hq : Z.quot (101 - rule50_count pos) 172 = 0)
    by (apply Z.quot_small_iff; lia).
  rewrite Hq. apply const_in_range. unfold SCALE_FACTOR_MAX. lia.
Qed.

(** All the scale evaluators stay in range on positions of the board, the
    queen-versus-rook one up to a fifty-move counter of 272. *)
Lemma scale_evaluators_in_range (strongSide : Color) (pos : Position) :
  pos_valid pos ->
  scale_in_range (Endgame_KBPsK strongSide pos)
  /\ scale_in_range (Endgame_KRPKR strongSide pos)
  /\ scale_in_range (Endgame_KRPKB strongSide pos)
  /\ scale_in_range (Endgame_KRPPKRP strongSide pos)
  /\ scale_in_range (Endgame_KPsK strongSide pos)
  /\ scale_in_range (Endgame_KBPKB strongSide pos)
  /\ scale_in_range (Endgame_KBPPKB strongSide pos)
  /\ scale_in_range (Endgame_KBPKN strongSide pos)
  /\ scale_in_range (Endgame_KNPK strongSide pos)
  /\ scale_in_range (Endgame_KNPKB strongSide pos)
  /\ (rule50_count pos <= 272 -> scale_in_range (Endgame_KQKRPs strongSide pos)).
Proof.
  intros Hv.
  repeat split; auto using KBPsK_range, KRPKR_range, KRPKB_range, KRPPKRP_range,
    KPsK_range, KBPKB_range, KBPPKB_range, KBPKN_range, KNPK_range, KNPKB_range,
    KQKRPs_range.
Qed.

(** ** Material signature builder *)

(** The three outcomes of [key], by the code's checks. *)
Lemma key_fen_outcomes (code : string) (c : Color) :
  let len := String.length code in
  (key_fen code c = KeyFail AssertionFailure
   /\ (len = 0 \/ 8 <= len \/ String.get 0 code <> Some "K"%char)%nat)
  \/ (key_fen code c = KeyFail OutOfRange
      /\ (0 < len < 8)%nat /\ String.get 0 code = Some "K"%char
      /\ find_from "K"%char code 1 = None)
  \/ ((exists fen, key_fen code c = KeyFen fen)
      /\ (0 < len < 8)%nat /\ String.get 0 code = Some "K"%char
      /\ exists i, find_from "K"%char code 1 = Some i).
Proof.
  cbv zeta. unfold key_fen.
  destruct (Nat.ltb_spec 0 (String.length code)) as [L0|L0];
    [|left; split; [reflexivity | left; lia]].
  destruct (Nat.ltb_spec (String.length code) 8) as [L8|L8];
    [|left; split; [reflexivity | right; left; lia]].
  cbn [andb negb].
  destruct (String.get 0 code) as [a|] eqn:G;
    [|left; split; [reflexivity | right; right; discriminate]].
  destruct (Ascii.eqb_spec a "K"%char) as [->|Ha];
    [|left; split; [reflexivity | right; right; congruence]].
  cbn [negb].
  destruct (find_from "K"%char code 1) as [i|] eqn:F.
  - right; right. split; [destruct c; eexists; reflexivity|].
    repeat split; try lia. now exists i.
  - right; left. repeat split; lia.
Qed.

(** Claim C8, as stated, fails: "PKPK" has a second 'K', no empty side and
    fewer than 8 characters, yet [key] fails on it (the [code[0] == 'K']
    assertion); and "KP", which lacks a second 'K', fails through the
    [std::out_of_range] of [substr], not through an assertion. *)
Lemma C8_key_failure_set :
  key_fen "PKPK" WHITE = KeyFail AssertionFailure
  /\ malformed_claimed "PKPK" = false
  /\ key_fen "KP" WHITE = KeyFail OutOfRange.
Proof. vm_compute. repeat split. Qed.

(** Claim C8 (amended): [key] fails by assertion exactly on the codes that are
    empty, 8 characters or longer, or do not start with 'K'; it fails by the
    [std::out_of_range] of [substr] exactly on the other codes that have no
    'K' after the first character; and every code [Endgames::Endgames()]
    registers is keyed for both colors. *)
Theorem C8_key_failures (code : string) (c : Color) :
  (key_fen code c = KeyFail AssertionFailure
   <-> (String.length code = 0 \/ 8 <= String.length code
        \/ String.get 0 code <> Some "K"%char)%nat)
  /\ (key_fen code c = KeyFail OutOfRange
      <-> (0 < String.length code < 8)%nat
          /\ String.get 0 code = Some "K"%char
          /\ find_from "K"%char code 1 = None)
  /\ forallb key_ok registry_keys = true.
Proof.
  split; [|split; [|reflexivity]].
  all: destruct (key_fen_outcomes code c)
         as [[-> H] | [[-> [H0 [H1 H2]]] | [[fen ->] [H0 [H1 [i H2]]]]]].
  all: split; intros H'; try discriminate; try tauto.
  all: try (destruct H' as [H'|[H'|H']]; [lia | lia | congruence]).
  all: try (destruct H' as [_ [_ H']]; congruence).
  all: destruct H' as [H3 [H4 _]]; destruct H as [H|[H|H]]; [lia | lia | congruence].
Qed.

(** * Instances on concrete positions *)

Ltac zdec := first [apply Z.leb_le | apply Z.ltb_lt]; vm_compute; reflexivity.

Lemma C7_PushClose_decreasing_witness : tbl PushClose 7 < tbl PushClose 2.
Proof.
  apply (proj1 C7_PushClose_decreasing 2 7); [split; zdec | zdec].
Defined.

Lemma C4_KXK_same_colored_bishops_draw_witness :
  Endgame_KXK (fun _ => 1%nat) WHITE pos_kbbk = VALUE_DRAW.
Proof.
  apply (C4_KXK_same_colored_bishops_draw (fun _ => 1%nat) WHITE pos_kbbk).
  - apply pos_validb_spec. vm_compute. reflexivity.
  - zdec.
  - left. intros s Hs. destruct Hs as [<-|[<-|[]]]; vm_compute; reflexivity.
  - vm_compute. reflexivity.
  - vm_compute. reflexivity.
  - vm_compute. reflexivity.
  - vm_compute. reflexivity.
Defined.

Lemma C10_KXK_beyond_known_win_witness :
  VALUE_KNOWN_WIN < Z.abs (Endgame_KXK (fun _ => 1%nat) WHITE pos_kbnk)
  /\ (0 < Endgame_KXK (fun _ => 1%nat) WHITE pos_kbnk <-> WHITE = side_to_move pos_kbnk).
Proof.
  apply (C10_KXK_beyond_known_win (fun _ => 1%nat) WHITE pos_kbnk).
  - apply pos_validb_spec. vm_compute. reflexivity.
  - vm_compute. reflexivity.
  - vm_compute. reflexivity.
Defined.

Lemma C3_KXK_corner_term_witness :
  Endgame_KXK (fun _ => 1%nat) WHITE pos_kbnk
  = VALUE_KNOWN_WIN + 165 + 400 + 400 + tbl PushToCorners (sq_flip SQ_A1).
Proof.
  etransitivity.
  - apply (C3_KXK_corner_term (fun _ => 1%nat) WHITE pos_kbnk).
    + apply pos_validb_spec. vm_compute. reflexivity.
    + vm_compute. reflexivity.
    + vm_compute. reflexivity.
  - vm_compute. reflexivity.
Defined.

Lemma C5_KPK_oracle_witness :
  Endgame_KPK probe_all_win WHITE pos_kpk = VALUE_KNOWN_WIN - 64 * (7 - RANK_5).
Proof.
  etransitivity.
  - apply (proj1 (proj2 (C5_KPK_oracle probe_all_win WHITE pos_kpk
                           (pos_validb_spec pos_kpk ltac:(vm_compute; reflexivity))))).
    vm_compute. reflexivity.
  - vm_compute. reflexivity.
Defined.

Lemma C9_KRPPKRP_table_index_witness :
  In (Endgame_KRPPKRP WHITE pos_krppkrp) [9; 10; 14; 21; 44].
Proof.
  refine (proj2 (proj2 (C9_KRPPKRP_table_index WHITE pos_krppkrp _ _ _ _ _ _ _ _))).
  - vm_compute. reflexivity.
  - intros s Hs. destruct Hs as [<-|[<-|[]]]; split; zdec.
  - intros s Hs H. destruct Hs as [<-|[<-|[]]]; vm_compute in H; discriminate.
  - vm_compute. reflexivity.
  - vm_compute. reflexivity.
  - zdec.
  - zdec.
  - zdec.
Defined.

Lemma C2_KQKRPs_rule50_truncated_witness :
  Endgame_KQKRPs WHITE (pos_kqkrps 50) = SCALE_FACTOR_DRAW.
Proof.
  apply (proj2 (proj2 (C2_KQKRPs_rule50_truncated WHITE (pos_kqkrps 50)
                         ltac:(vm_compute; reflexivity)))).
  split; zdec.
Defined.

(** * Reflections, the value evaluators and the transposition table *)

(** ** Reflections of squares *)

Lemma opp_involutive (c : Color) : opp (opp c) = c.
Proof. now destruct c. Qed.

Lemma color_eqb_opp (a b : Color) : color_eqb (opp a) (opp b) = color_eqb a b.
Proof. now destruct a, b. Qed.

(** The bits of a constant below [2^6] from the sixth on are clear. *)
Lemma testbit_const_high (k n : Z) : 0 <= k < 64 -> 6 <= n -> Z.testbit k n = false.
Proof.
  intros Hk Hn. destruct (Z.eq_dec k 0) as [->|Hk0]; [apply Z.bits_0|].
  apply Z.bits_above_log2; [lia|].
  assert (Z.log2 k < 6) by (apply Z.log2_lt_pow2; lia). lia.
Qed.

Ltac low_bits n :=
  let H := fresh in
  assert (H : n = 0 \/ n = 1 \/ n = 2 \/ n = 3 \/ n = 4 \/ n = 5 \/ 6 <= n) by lia;
  destruct H as [->|[->|[->|[->|[->|[->|H]]]]]];
  [ .. | rewrite ?(testbit_const_high 7 n), ?(testbit_const_high 56 n),
           ?(testbit_const_high 7 (n + 3)), ?(testbit_const_high 56 (n + 3)) by lia ];
  repeat match goal with |- context [Z.testbit ?x ?m] =>
           is_var x; destruct (Z.testbit x m) end; reflexivity.

Lemma file_of_flip (s : Z) : file_of (sq_flip s) = file_of s.
Proof.
  unfold file_of, sq_flip, SQ_A8. apply Z.bits_inj'. intros n Hn.
  rewrite !Z.land_spec, Z.lxor_spec. low_bits n.
Qed.

Lemma file_of_mirror (s : Z) : file_of (sq_mirror s) = Z.lxor (file_of s) 7.
Proof.
  unfold file_of, sq_mirror. apply Z.bits_inj'. intros n Hn.
  rewrite Z.land_spec, !Z.lxor_spec, Z.land_spec. low_bits n.
Qed.

Lemma rank_of_flip (s : Z) : rank_of (sq_flip s) = Z.lxor (rank_of s) 7.
Proof.
  unfold rank_of, sq_flip, SQ_A8. apply Z.bits_inj'. intros n Hn.
  rewrite Z.shiftr_spec, !Z.lxor_spec, Z.shiftr_spec by lia. low_bits n.
Qed.

Lemma rank_of_mirror (s : Z) : rank_of (sq_mirror s) = rank_of s.
Proof.
  unfold rank_of, sq_mirror. apply Z.bits_inj'. intros n Hn.
  rewrite Z.shiftr_spec, Z.lxor_spec, Z.shiftr_spec by lia. low_bits n.
Qed.

Lemma lxor_7_small (r : Z) : 0 <= r <= 7 -> Z.lxor r 7 = 7 - r.
Proof.
  intros Hr. assert (r = 0 \/ r = 1 \/ r = 2 \/ r = 3 \/ r = 4 \/ r = 5 \/ r = 6 \/ r = 7)
    as H by lia.
  destruct H as [->|[->|[->|[->|[->|[->|[->| ->]]]]]]]; reflexivity.
Qed.

Lemma flip_mirror_comm (s : Z) : sq_flip (sq_mirror s) = sq_mirror (sq_flip s).
Proof. unfold sq_flip, sq_mirror. rewrite !Z.lxor_assoc. now rewrite (Z.lxor_comm 7). Qed.

Lemma opposite_colors_flip (a b : Z) :
  opposite_colors (sq_flip a) (sq_flip b) = opposite_colors a b.
Proof.
  unfold opposite_colors, sq_flip.
  replace (Z.lxor (Z.lxor a SQ_A8) (Z.lxor b SQ_A8)) with (Z.lxor a b); [reflexivity|].
  rewrite (Z.lxor_comm b), Z.lxor_assoc, <- (Z.lxor_assoc SQ_A8), Z.lxor_nilpotent,
    Z.lxor_0_l. reflexivity.
Qed.

Lemma opposite_colors_mirror (a b : Z) :
  opposite_colors (sq_mirror a) (sq_mirror b) = opposite_colors a b.
Proof.
  unfold opposite_colors, sq_mirror.
  replace (Z.lxor (Z.lxor a 7) (Z.lxor b 7)) with (Z.lxor a b); [reflexivity|].
  rewrite (Z.lxor_comm b), Z.lxor_assoc, <- (Z.lxor_assoc 7), Z.lxor_nilpotent,
    Z.lxor_0_l. reflexivity.
Qed.

Lemma distance_flip (x y : Z) :
  valid_sq x -> valid_sq y -> distance (sq_flip x) (sq_flip y) = distance x y.
Proof.
  intros Hx Hy. unfold distance, distance_file, distance_rank.
  rewrite !file_of_flip, !rank_of_flip, !lxor_7_small
    by (apply rank_of_bounds; assumption).
  lia.
Qed.

Lemma distance_mirror (x y : Z) :
  distance (sq_mirror x) (sq_mirror y) = distance x y.
Proof.
  unfold distance, distance_file, distance_rank.
  rewrite !file_of_mirror, !rank_of_mirror, !lxor_7_small by apply file_of_bounds.
  lia.
Qed.


Lemma relative_square_flip (c : Color) (s : Z) :
  relative_square (opp c) (sq_flip s) = relative_square c s.
Proof.
  unfold relative_square, sq_flip.
  destruct c; cbn [opp color_z Z.mul]; rewrite ?Z.lxor_0_r;
    [apply lxor_twice | reflexivity].
Qed.

Lemma relative_rank_flip (c : Color) (s : Z) :
  relative_rank (opp c) (sq_flip s) = relative_rank c s.
Proof.
  unfold relative_rank, relative_rank_r. rewrite rank_of_flip.
  destruct c; cbn [opp color_z Z.mul]; rewrite ?Z.lxor_0_r;
    [apply lxor_twice | reflexivity].
Qed.

(** ** Reflected positions *)

Lemma stm_flip (pos : Position) : side_to_move (flip_pos pos) = opp (side_to_move pos).
Proof. reflexivity. Qed.

Lemma square_flip (pos : Position) (c : Color) (pt : PieceType) :
  piece_list pos (opp c) pt <> [] ->
  square (flip_pos pos) c pt = sq_flip (square pos (opp c) pt).
Proof.
  intros H. unfold square, flip_pos. cbn [piece_list].
  destruct (piece_list pos (opp c) pt); [congruence | reflexivity].
Qed.

Lemma square_mirror (pos : Position) (c : Color) (pt : PieceType) :
  piece_list pos c pt <> [] ->
  square (mirror_pos pos) c pt = sq_mirror (square pos c pt).
Proof.
  intros H. unfold square, mirror_pos. cbn [piece_list].
  destruct (piece_list pos c pt); [congruence | reflexivity].
Qed.

Lemma count_flip (pos : Position) (c : Color) (pt : PieceType) :
  count (flip_pos pos) c pt = count pos (opp c) pt.
Proof. unfold count, flip_pos. cbn [piece_list]. now rewrite length_map. Qed.

Lemma count_mirror (pos : Position) (c : Color) (pt : PieceType) :
  count (mirror_pos pos) c pt = count pos c pt.
Proof. unfold count, mirror_pos. cbn [piece_list]. now rewrite length_map. Qed.

Lemma flip_pos_valid (pos : Position) : pos_valid pos -> pos_valid (flip_pos pos).
Proof.
  intros Hv c pt s Hs. unfold flip_pos in Hs. cbn [piece_list] in Hs.
  apply in_map_iff in Hs as [t [<- Ht]]. apply sq_flip_valid, (Hv _ _ _ Ht).
Qed.

Lemma normalize_flip (pos : Position) (c : Color) (s : Z) :
  piece_list pos c PAWN <> [] ->
  normalize (flip_pos pos) (opp c) (sq_flip s) = normalize pos c s.
Proof.
  intros H. unfold normalize.
  rewrite (square_flip pos (opp c) PAWN) by now rewrite opp_involutive.
  rewrite opp_involutive, file_of_flip.
  destruct (FILE_E <=? file_of (square pos c PAWN)), c; cbn [opp];
    unfold sq_flip, sq_mirror;
    apply Z.bits_inj'; intros n _; rewrite ?Z.lxor_spec;
    destruct (Z.testbit s n), (Z.testbit 7 n), (Z.testbit SQ_A8 n); reflexivity.
Qed.

Lemma normalize_mirror (pos : Position) (c : Color) (s : Z) :
  piece_list pos c PAWN <> [] ->
  normalize (mirror_pos pos) c (sq_mirror s) = normalize pos c s.
Proof.
  intros H. unfold normalize.
  rewrite (square_mirror pos c PAWN H), file_of_mirror, lxor_7_small by apply file_of_bounds.
  pose proof (file_of_bounds (square pos c PAWN)).
  unfold FILE_E.
  destruct (Z.leb_spec 4 (file_of (square pos c PAWN)));
    [rewrite (proj2 (Z.leb_gt 4 (7 - _))) by lia
    |rewrite (proj2 (Z.leb_le 4 (7 - _))) by lia; unfold sq_mirror; rewrite lxor_twice];
    reflexivity.
Qed.

(** Rewrites the squares of a flipped position to the flipped squares. *)
Ltac flip_squares :=
  repeat (rewrite square_flip by (rewrite ?opp_involutive; assumption));
  rewrite ?opp_involutive.

Ltac mirror_squares :=
  repeat (rewrite square_mirror by assumption).


Lemma relative_rank_flip' (c : Color) (s : Z) :
  relative_rank c (sq_flip s) = relative_rank (opp c) s.
Proof. rewrite <- (relative_rank_flip (opp c)), opp_involutive. reflexivity. Qed.

Lemma relative_rank_mirror (c : Color) (s : Z) :
  relative_rank c (sq_mirror s) = relative_rank c s.
Proof. unfold relative_rank. now rewrite rank_of_mirror. Qed.

(** ** Tables under reflections *)

Lemma PushToEdges_flip (s : Z) :
  valid_sq s -> tbl PushToEdges (sq_flip s) = tbl PushToEdges s.
Proof.
  intros Hs. apply Z.eqb_eq.
  exact (forall_squares (fun s => tbl PushToEdges (sq_flip s) =? tbl PushToEdges s)
           eq_refl s Hs).
Qed.

Lemma PushToEdges_mirror (s : Z) :
  valid_sq s -> tbl PushToEdges (sq_mirror s) = tbl PushToEdges s.
Proof.
  intros Hs. apply Z.eqb_eq.
  exact (forall_squares (fun s => tbl PushToEdges (sq_mirror s) =? tbl PushToEdges s)
           eq_refl s Hs).
Qed.

Lemma PushToCorners_half_turn (s : Z) :
  valid_sq s -> tbl PushToCorners (sq_flip (sq_mirror s)) = tbl PushToCorners s.
Proof.
  intros Hs. apply Z.eqb_eq.
  exact (forall_squares
           (fun s => tbl PushToCorners (sq_flip (sq_mirror s)) =? tbl PushToCorners s)
           eq_refl s Hs).
Qed.

Lemma opposite_colors_A1_flip (s : Z) :
  valid_sq s -> opposite_colors (sq_flip s) SQ_A1 = negb (opposite_colors s SQ_A1).
Proof.
  intros Hs. apply Bool.eqb_prop.
  exact (forall_squares
    (fun s => Bool.eqb (opposite_colors (sq_flip s) SQ_A1) (negb (opposite_colors s SQ_A1)))
    eq_refl s Hs).
Qed.

Lemma opposite_colors_A1_mirror (s : Z) :
  valid_sq s -> opposite_colors (sq_mirror s) SQ_A1 = negb (opposite_colors s SQ_A1).
Proof.
  intros Hs. apply Bool.eqb_prop.
  exact (forall_squares
    (fun s => Bool.eqb (opposite_colors (sq_mirror s) SQ_A1) (negb (opposite_colors s SQ_A1)))
    eq_refl s Hs).
Qed.

Lemma DarkSquares_flip (s : Z) :
  valid_sq s -> Z.testbit DarkSquares (sq_flip s) = negb (Z.testbit DarkSquares s).
Proof.
  intros Hs. apply Bool.eqb_prop.
  exact (forall_squares
    (fun s => Bool.eqb (Z.testbit DarkSquares (sq_flip s)) (negb (Z.testbit DarkSquares s)))
    eq_refl s Hs).
Qed.

Lemma DarkSquares_mirror (s : Z) :
  valid_sq s -> Z.testbit DarkSquares (sq_mirror s) = negb (Z.testbit DarkSquares s).
Proof.
  intros Hs. apply Bool.eqb_prop.
  exact (forall_squares
    (fun s => Bool.eqb (Z.testbit DarkSquares (sq_mirror s)) (negb (Z.testbit DarkSquares s)))
    eq_refl s Hs).
Qed.

(** The file test of [Endgame<KQKP>]: the pawn on the a-, c-, f- or h-file. *)
Lemma KQKP_files (s : Z) :
  valid_sq s ->
  nonzero (Z.land (Z.lor (Z.lor (Z.lor FileABB FileCBB) FileFBB) FileHBB) (square_bb s))
  = existsb (Z.eqb (file_of s)) [FILE_A; FILE_C; FILE_F; FILE_H].
Proof.
  intros Hs. apply Bool.eqb_prop.
  exact (forall_squares
    (fun s => Bool.eqb
       (nonzero (Z.land (Z.lor (Z.lor (Z.lor FileABB FileCBB) FileFBB) FileHBB) (square_bb s)))
       (existsb (Z.eqb (file_of s)) [FILE_A; FILE_C; FILE_F; FILE_H]))
    eq_refl s Hs).
Qed.

Lemma KQKP_files_mirror (s : Z) :
  existsb (Z.eqb (file_of (sq_mirror s))) [FILE_A; FILE_C; FILE_F; FILE_H]
  = existsb (Z.eqb (file_of s)) [FILE_A; FILE_C; FILE_F; FILE_H].
Proof.
  rewrite file_of_mirror, lxor_7_small by apply file_of_bounds.
  pose proof (file_of_bounds s).
  assert (file_of s = 0 \/ file_of s = 1 \/ file_of s = 2 \/ file_of s = 3
          \/ file_of s = 4 \/ file_of s = 5 \/ file_of s = 6 \/ file_of s = 7) as H' by lia.
  destruct H' as [->|[->|[->|[->|[->|[->|[->| ->]]]]]]]; reflexivity.
Qed.

(** ** Bitboards of reflected piece lists *)

Lemma nonzero_lor (a b : Z) : nonzero (Z.lor a b) = nonzero a || nonzero b.
Proof.
  unfold nonzero. destruct (Z.eqb_spec (Z.lor a b) 0) as [H|H].
  - apply Z.lor_eq_0_iff in H as [-> ->]. reflexivity.
  - destruct (Z.eqb_spec a 0) as [->|]; destruct (Z.eqb_spec b 0) as [->|]; try reflexivity.
    exfalso. apply H. reflexivity.
Qed.

Lemma nonzero_square_bb_land (s m : Z) :
  0 <= s -> nonzero (Z.land (square_bb s) m) = Z.testbit m s.
Proof.
  intros Hs. unfold nonzero. destruct (Z.testbit m s) eqn:Hm.
  - destruct (Z.eqb_spec (Z.land (square_bb s) m) 0) as [H|H]; [|reflexivity].
    exfalso. assert (Z.testbit (Z.land (square_bb s) m) s = true) as Hb.
    { rewrite Z.land_spec, testbit_square_bb, Z.eqb_refl, Hm by exact Hs. reflexivity. }
    rewrite H, Z.bits_0 in Hb. discriminate.
  - replace (Z.land (square_bb s) m) with 0; [reflexivity|].
    apply Z.bits_inj'. intros n Hn.
    rewrite Z.land_spec, testbit_square_bb, Z.bits_0 by exact Hs.
    destruct (Z.eqb_spec s n) as [<-|]; [rewrite Hm|]; reflexivity.
Qed.

(** A bitboard of pieces meets a mask when one of the pieces stands on it. *)
Lemma nonzero_land_bb (l : list Z) (m : Z) :
  (forall s, In s l -> 0 <= s) ->
  nonzero (Z.land (bb_of_list l) m) = existsb (Z.testbit m) l.
Proof.
  induction l as [|a l IH]; intros H.
  - rewrite Z.land_0_l. reflexivity.
  - change (bb_of_list (a :: l)) with (Z.lor (square_bb a) (bb_of_list l)).
    rewrite Z.land_lor_distr_l, nonzero_lor, nonzero_square_bb_land, IH.
    + reflexivity.
    + intros s Hs. apply H. now right.
    + apply H. now left.
Qed.

Lemma existsb_ext_in {A} (f g : A -> bool) (l : list A) :
  (forall x, In x l -> f x = g x) -> existsb f l = existsb g l.
Proof.
  induction l as [|a l IH]; intros H; [reflexivity|]. cbn [existsb].
  rewrite H, IH; [reflexivity | intros x Hx; apply H; now right | now left].
Qed.

(** [kxk_same_colored_bishops] reads the bishops through their colors. *)
Lemma same_colored_bishops_colors (pos : Position) (c : Color) :
  pos_valid pos ->
  kxk_same_colored_bishops c pos =
    (1 <? count pos c BISHOP)
    && negb (existsb (Z.testbit DarkSquares) (piece_list pos c BISHOP)
             && existsb (fun s => negb (Z.testbit DarkSquares s)) (piece_list pos c BISHOP))
    && (count pos c PAWN =? 0) && (count pos c KNIGHT =? 0)
    && (count pos c ROOK =? 0) && (count pos c QUEEN =? 0).
Proof.
  intros Hv. unfold kxk_same_colored_bishops, pieces_cp.
  assert (Hnn : forall s, In s (piece_list pos c BISHOP) -> 0 <= s)
    by (intros s Hs; apply (Hv _ _ _ Hs)).
  rewrite !nonzero_land_bb by exact Hnn.
  rewrite (existsb_ext_in (Z.testbit (Z.lnot DarkSquares))
                          (fun s => negb (Z.testbit DarkSquares s))); [reflexivity|].
  intros s Hs. apply Z.lnot_spec, Hnn, Hs.
Qed.


Lemma existsb_dark_swap (T : Z -> Z) (l : list Z) :
  (forall s, valid_sq s -> Z.testbit DarkSquares (T s) = negb (Z.testbit DarkSquares s)) ->
  (forall s, In s l -> valid_sq s) ->
  existsb (Z.testbit DarkSquares) (map T l)
    = existsb (fun s => negb (Z.testbit DarkSquares s)) l
  /\ existsb (fun s => negb (Z.testbit DarkSquares s)) (map T l)
    = existsb (Z.testbit DarkSquares) l.
Proof.
  intros HT. induction l as [|a l IH]; intros Hl; [split; reflexivity|].
  destruct IH as [IH1 IH2]; [intros s Hs; apply Hl; now right|].
  cbn [map existsb]. rewrite HT, negb_involutive, IH1, IH2 by (apply Hl; now left).
  split; reflexivity.
Qed.

Lemma sq_flip_twice (s : Z) : sq_flip (sq_flip s) = s.
Proof. apply lxor_twice. Qed.

Lemma sq_mirror_twice (s : Z) : sq_mirror (sq_mirror s) = s.
Proof. apply lxor_twice. Qed.

Lemma non_pawn_material_flip (pos : Position) (c : Color) :
  non_pawn_material (flip_pos pos) c = non_pawn_material pos (opp c).
Proof. unfold non_pawn_material. now rewrite !count_flip. Qed.

Lemma non_pawn_material_mirror (pos : Position) (c : Color) :
  non_pawn_material (mirror_pos pos) c = non_pawn_material pos c.
Proof. unfold non_pawn_material. now rewrite !count_mirror. Qed.

Lemma same_colored_bishops_flip (pos : Position) (c : Color) :
  pos_valid pos ->
  kxk_same_colored_bishops (opp c) (flip_pos pos) = kxk_same_colored_bishops c pos.
Proof.
  intros Hv. rewrite !same_colored_bishops_colors by auto using flip_pos_valid.
  rewrite !count_flip, opp_involutive.
  unfold flip_pos. cbn [piece_list]. rewrite opp_involutive.
  destruct (existsb_dark_swap sq_flip (piece_list pos c BISHOP) DarkSquares_flip
              (fun s Hs => Hv _ _ _ Hs)) as [-> ->].
  rewrite (andb_comm (existsb (fun s => negb _) _)). reflexivity.
Qed.

(** ** Evaluators of a flipped position *)

Lemma count_one_nonempty (pos : Position) (c : Color) (pt : PieceType) :
  (count pos c pt =? 1) = true -> piece_list pos c pt <> [].
Proof. unfold count. destruct (piece_list pos c pt); [discriminate | congruence]. Qed.

Theorem KXK_color_symmetric (legal_moves : Position -> nat) (c : Color) (pos : Position) :
  pos_valid pos ->
  piece_list pos c KING <> [] -> piece_list pos (opp c) KING <> [] ->
  legal_moves (flip_pos pos) = legal_moves pos ->
  Endgame_KXK legal_moves (opp c) (flip_pos pos) = Endgame_KXK legal_moves c pos.
Proof.
  intros Hv HK HK' HL. unfold Endgame_KXK.
  rewrite (same_colored_bishops_flip pos c Hv).
  replace (kxk_stalemate legal_moves (opp c) (flip_pos pos))
    with (kxk_stalemate legal_moves c pos)
    by (unfold kxk_stalemate; rewrite HL, stm_flip, color_eqb_opp; reflexivity).
  destruct (kxk_stalemate legal_moves c pos); [reflexivity|].
  destruct (kxk_same_colored_bishops c pos); [reflexivity|].
  cbv zeta. rewrite stm_flip, color_eqb_opp, !count_flip, non_pawn_material_flip.
  rewrite opp_involutive.
  destruct ((count pos c BISHOP =? 1) && (count pos c KNIGHT =? 1)) eqn:EBN;
    cbv beta iota.
  - apply andb_prop in EBN as [EB _].
    pose proof (count_one_nonempty pos c BISHOP EB) as HB.
    flip_squares.
    pose proof (square_valid pos c KING Hv). pose proof (square_valid pos (opp c) KING Hv).
    pose proof (square_valid pos c BISHOP Hv).
    rewrite PushToEdges_flip, distance_flip, opposite_colors_A1_flip by assumption.
    destruct (opposite_colors (square pos c BISHOP) SQ_A1); cbv beta iota delta [negb];
      rewrite ?sq_flip_twice; reflexivity.
  - flip_squares.
    pose proof (square_valid pos c KING Hv). pose proof (square_valid pos (opp c) KING Hv).
    rewrite PushToEdges_flip, distance_flip by assumption. reflexivity.
Qed.


Lemma same_colored_bishops_mirror (pos : Position) (c : Color) :
  pos_valid pos ->
  kxk_same_colored_bishops c (mirror_pos pos) = kxk_same_colored_bishops c pos.
Proof.
  intros Hv.
  assert (Hv' : pos_valid (mirror_pos pos)).
  { intros c' pt s Hs. unfold mirror_pos in Hs. cbn [piece_list] in Hs.
    apply in_map_iff in Hs as [t [<- Ht]]. apply sq_mirror_valid, (Hv _ _ _ Ht). }
  rewrite !same_colored_bishops_colors by assumption.
  rewrite !count_mirror. unfold mirror_pos. cbn [piece_list].
  destruct (existsb_dark_swap sq_mirror (piece_list pos c BISHOP) DarkSquares_mirror
              (fun s Hs => Hv _ _ _ Hs)) as [-> ->].
  rewrite (andb_comm (existsb (fun s => negb _) _)). reflexivity.
Qed.

Lemma KXK_mirror_symmetric (legal_moves : Position -> nat) (c : Color) (pos : Position) :
  pos_valid pos ->
  piece_list pos c KING <> [] -> piece_list pos (opp c) KING <> [] ->
  legal_moves (mirror_pos pos) = legal_moves pos ->
  Endgame_KXK legal_moves c (mirror_pos pos) = Endgame_KXK legal_moves c pos.
Proof.
  intros Hv HK HK' HL. unfold Endgame_KXK.
  rewrite (same_colored_bishops_mirror pos c Hv).
  replace (kxk_stalemate legal_moves c (mirror_pos pos))
    with (kxk_stalemate legal_moves c pos)
    by (unfold kxk_stalemate; rewrite HL; reflexivity).
  destruct (kxk_stalemate legal_moves c pos); [reflexivity|].
  destruct (kxk_same_colored_bishops c pos); [reflexivity|].
  cbv zeta. rewrite !count_mirror, non_pawn_material_mirror.
  change (side_to_move (mirror_pos pos)) with (side_to_move pos).
  pose proof (square_valid pos c KING Hv). pose proof (square_valid pos (opp c) KING Hv).
  destruct ((count pos c BISHOP =? 1) && (count pos c KNIGHT =? 1)) eqn:EBN;
    cbv beta iota.
  - apply andb_prop in EBN as [EB _].
    pose proof (count_one_nonempty pos c BISHOP EB) as HB.
    mirror_squares.
    pose proof (square_valid pos c BISHOP Hv).
    rewrite PushToEdges_mirror, distance_mirror, opposite_colors_A1_mirror by assumption.
    destruct (opposite_colors (square pos c BISHOP) SQ_A1); cbv beta iota delta [negb].
    + rewrite <- (PushToCorners_half_turn (sq_flip (square pos (opp c) KING)))
        by (apply sq_flip_valid; assumption).
      rewrite flip_mirror_comm, sq_flip_twice.
      reflexivity.
    + rewrite PushToCorners_half_turn by assumption. reflexivity.
  - mirror_squares.
    rewrite PushToEdges_mirror, distance_mirror by assumption. reflexivity.
Qed.


Lemma rule50_flip (pos : Position) : rule50_count (flip_pos pos) = rule50_count pos.
Proof. reflexivity. Qed.

Lemma file_eqb_mirror (a b : Z) :
  (file_of (sq_mirror a) =? file_of (sq_mirror b)) = (file_of a =? file_of b).
Proof.
  rewrite !file_of_mirror, !lxor_7_small by apply file_of_bounds.
  destruct (Z.eqb_spec (7 - file_of a) (7 - file_of b)),
           (Z.eqb_spec (file_of a) (file_of b)); lia.
Qed.

Lemma KPK_flip (probe : Z -> Z -> Z -> Color -> bool) (c : Color) (pos : Position) :
  piece_list pos c KING <> [] -> piece_list pos (opp c) KING <> [] ->
  piece_list pos c PAWN <> [] ->
  Endgame_KPK probe (opp c) (flip_pos pos) = Endgame_KPK probe c pos.
Proof.
  intros HK HK' HP. unfold Endgame_KPK. cbv zeta.
  rewrite stm_flip, !color_eqb_opp. flip_squares.
  rewrite !normalize_flip by assumption. reflexivity.
Qed.

Lemma KPK_mirror (probe : Z -> Z -> Z -> Color -> bool) (c : Color) (pos : Position) :
  piece_list pos c KING <> [] -> piece_list pos (opp c) KING <> [] ->
  piece_list pos c PAWN <> [] ->
  Endgame_KPK probe c (mirror_pos pos) = Endgame_KPK probe c pos.
Proof.
  intros HK HK' HP. unfold Endgame_KPK. cbv zeta. mirror_squares.
  rewrite !normalize_mirror by assumption. reflexivity.
Qed.

Lemma KRPKR_flip (c : Color) (pos : Position) :
  (forall c', piece_list pos c' KING <> []) ->
  (forall c', piece_list pos c' ROOK <> []) ->
  piece_list pos c PAWN <> [] ->
  Endgame_KRPKR (opp c) (flip_pos pos) = Endgame_KRPKR c pos.
Proof.
  intros HK HR HP. unfold Endgame_KRPKR. cbv zeta.
  rewrite stm_flip, !color_eqb_opp.
  repeat (rewrite square_flip by (rewrite ?opp_involutive; auto)).
  rewrite ?opp_involutive, !normalize_flip by assumption. reflexivity.
Qed.

Lemma KRPKR_mirror (c : Color) (pos : Position) :
  (forall c', piece_list pos c' KING <> []) ->
  (forall c', piece_list pos c' ROOK <> []) ->
  piece_list pos c PAWN <> [] ->
  Endgame_KRPKR c (mirror_pos pos) = Endgame_KRPKR c pos.
Proof.
  intros HK HR HP. unfold Endgame_KRPKR. cbv zeta.
  repeat (rewrite square_mirror by auto).
  rewrite !normalize_mirror by assumption. reflexivity.
Qed.

Lemma KNPK_flip (c : Color) (pos : Position) :
  (forall c', piece_list pos c' KING <> []) ->
  piece_list pos c PAWN <> [] -> piece_list pos c KNIGHT <> [] ->
  Endgame_KNPK (opp c) (flip_pos pos) = Endgame_KNPK c pos.
Proof.
  intros HK HP HN. unfold Endgame_KNPK. cbv zeta.
  rewrite stm_flip, !color_eqb_opp.
  repeat (rewrite square_flip by (rewrite ?opp_involutive; auto)).
  rewrite ?opp_involutive, !normalize_flip by assumption. reflexivity.
Qed.

Lemma KNPK_mirror (c : Color) (pos : Position) :
  (forall c', piece_list pos c' KING <> []) ->
  piece_list pos c PAWN <> [] -> piece_list pos c KNIGHT <> [] ->
  Endgame_KNPK c (mirror_pos pos) = Endgame_KNPK c pos.
Proof.
  intros HK HP HN. unfold Endgame_KNPK. cbv zeta.
  repeat (rewrite square_mirror by auto).
  rewrite !normalize_mirror by assumption. reflexivity.
Qed.

Lemma KBPKN_flip (c : Color) (pos : Position) :
  piece_list pos (opp c) KING <> [] ->
  piece_list pos c PAWN <> [] -> piece_list pos c BISHOP <> [] ->
  Endgame_KBPKN (opp c) (flip_pos pos) = Endgame_KBPKN c pos.
Proof.
  intros HK HP HB. unfold Endgame_KBPKN. cbv zeta. flip_squares.
  rewrite !file_of_flip, !relative_rank_flip, opposite_colors_flip. reflexivity.
Qed.

Lemma KBPKN_mirror (c : Color) (pos : Position) :
  piece_list pos (opp c) KING <> [] ->
  piece_list pos c PAWN <> [] -> piece_list pos c BISHOP <> [] ->
  Endgame_KBPKN c (mirror_pos pos) = Endgame_KBPKN c pos.
Proof.
  intros HK HP HB. unfold Endgame_KBPKN. cbv zeta. mirror_squares.
  rewrite file_eqb_mirror, !relative_rank_mirror, opposite_colors_mirror. reflexivity.
Qed.

Lemma KRKP_flip (c : Color) (pos : Position) :
  piece_list pos c KING <> [] -> piece_list pos (opp c) KING <> [] ->
  piece_list pos c ROOK <> [] -> piece_list pos (opp c) PAWN <> [] ->
  Endgame_KRKP (opp c) (flip_pos pos) = Endgame_KRKP c pos.
Proof.
  intros HK HK' HR HP. unfold Endgame_KRKP. cbv zeta.
  rewrite stm_flip, !color_eqb_opp. flip_squares.
  rewrite !relative_square_flip. reflexivity.
Qed.

Lemma KQKP_flip (c : Color) (pos : Position) :
  pos_valid pos ->
  piece_list pos c KING <> [] -> piece_list pos (opp c) KING <> [] ->
  piece_list pos (opp c) PAWN <> [] ->
  Endgame_KQKP (opp c) (flip_pos pos) = Endgame_KQKP c pos.
Proof.
  intros Hv HK HK' HP. unfold Endgame_KQKP. cbv zeta.
  rewrite stm_flip, !color_eqb_opp, rule50_flip. flip_squares.
  pose proof (square_valid pos c KING Hv). pose proof (square_valid pos (opp c) KING Hv).
  pose proof (square_valid pos (opp c) PAWN Hv).
  rewrite relative_rank_flip', !distance_flip, !KQKP_files, file_of_flip
    by auto using sq_flip_valid.
  reflexivity.
Qed.

Lemma KQKP_mirror (c : Color) (pos : Position) :
  pos_valid pos ->
  piece_list pos c KING <> [] -> piece_list pos (opp c) KING <> [] ->
  piece_list pos (opp c) PAWN <> [] ->
  Endgame_KQKP c (mirror_pos pos) = Endgame_KQKP c pos.
Proof.
  intros Hv HK HK' HP. unfold Endgame_KQKP. cbv zeta. mirror_squares.
  pose proof (square_valid pos (opp c) PAWN Hv).
  rewrite relative_rank_mirror, !distance_mirror, !KQKP_files, KQKP_files_mirror
    by auto using sq_mirror_valid.
  reflexivity.
Qed.


(** ** Value bounds of [Endgame<KRKP>] and [Endgame<KQKP>] *)


Lemma rank_of_div (s : Z) : rank_of s = s / 8.
Proof. unfold rank_of. now rewrite Z.shiftr_div_pow2 by lia. Qed.

Lemma relative_square_valid (c : Color) (s : Z) :
  valid_sq s -> valid_sq (relative_square c s).
Proof.
  intros Hs. unfold relative_square. destruct c; cbn [color_z Z.mul].
  - now rewrite Z.lxor_0_r.
  - apply sq_flip_valid, Hs.
Qed.

(** The square behind a pawn, [psq + DELTA_S], is at most eight ranks from
    a square of the board. *)
Lemma distance_south_bounds (x p : Z) :
  valid_sq x -> valid_sq p -> 0 <= distance x (p + DELTA_S) <= 8.
Proof.
  intros Hx Hp. unfold distance, distance_file, distance_rank.
  pose proof (file_of_bounds x). pose proof (file_of_bounds (p + DELTA_S)).
  pose proof (rank_of_bounds x Hx). pose proof (rank_of_bounds p Hp).
  assert (rank_of (p + DELTA_S) = rank_of p - 1).
  { rewrite !rank_of_div. unfold DELTA_S.
    replace (p + -8) with (p + (-1) * 8) by lia. rewrite Z.div_add by lia. lia. }
  lia.
Qed.

Lemma make_square_valid (f r : Z) : 0 <= r <= 7 -> valid_sq (make_square (file_of f) r).
Proof.
  intros Hr. pose proof (file_of_bounds f). unfold make_square, valid_sq.
  rewrite Z.shiftl_mul_pow2 by lia. change (2 ^ 3) with 8. lia.
Qed.

Lemma PushClose_le (i : Z) : tbl PushClose i <= 400.
Proof. apply tbl_forall; [|lia]. repeat constructor; discriminate. Qed.


(** [Endgame<KRKP>] never scores the rook side as losing: the score, signed
    for the side to move, is the known win [VALUE_KNOWN_WIN + RookValueEg / 10
    - PawnValueEg] or a score between 24 and 320 for the rook side. *)
Theorem KRKP_score_for_rook_side (c : Color) (pos : Position) :
  pos_valid pos ->
  exists r, Endgame_KRKP c pos = (if color_eqb c (side_to_move pos) then r else - r)
            /\ (r = VALUE_KNOWN_WIN + Z.quot RookValueEg 10 - PawnValueEg
                \/ 24 <= r <= 320).
Proof.
  intros Hv. unfold Endgame_KRKP. cbv zeta.
  eexists. split; [reflexivity|].
  pose proof (fun pt c' => relative_square_valid c _ (square_valid pos c' pt Hv)) as V.
  pose proof (distance_south_bounds _ _ (V KING c) (V PAWN (opp c))).
  pose proof (distance_south_bounds _ _ (V KING (opp c)) (V PAWN (opp c))).
  pose proof (distance_bounds _ _ (V KING c) (V PAWN (opp c))).
  pose proof (distance_bounds _ _ (V PAWN (opp c))
                (make_square_valid (relative_square c (square pos (opp c) PAWN)) RANK_1
                   ltac:(unfold RANK_1; lia))).
  split_branches; first [left; reflexivity | right; lia].
Qed.


(** [Endgame<KQKP>] scores the queen side, signed for the side to move, below
    400 when the pawn stands on its seventh rank on the a-, c-, f- or h-file
    next to its king, and otherwise at least the known win
    [VALUE_KNOWN_WIN + QueenValueEg / 10 - PawnValueEg], at most 400 above it. *)
Theorem KQKP_score_for_queen_side (c : Color) (pos : Position) :
  pos_valid pos -> 0 <= rule50_count pos ->
  let pawnSq := square pos (opp c) PAWN in
  exists r, Endgame_KQKP c pos = (if color_eqb c (side_to_move pos) then r else - r)
    /\ (if (relative_rank (opp c) pawnSq =? RANK_7)
           && (distance (square pos (opp c) KING) pawnSq =? 1)
           && existsb (Z.eqb (file_of pawnSq)) [FILE_A; FILE_C; FILE_F; FILE_H]
        then 0 <= r <= 400
        else VALUE_KNOWN_WIN + Z.quot QueenValueEg 10 - PawnValueEg <= r
             <= VALUE_KNOWN_WIN + Z.quot QueenValueEg 10 - PawnValueEg + 400).
Proof.
  intros Hv Hr pawnSq. unfold Endgame_KQKP. cbv zeta.
  eexists. split; [reflexivity|].
  rewrite KQKP_files by apply (square_valid pos (opp c) PAWN Hv).
  fold pawnSq.
  pose proof (PushClose_ge (distance (square pos c KING) (square pos (opp c) KING))).
  pose proof (PushClose_le (distance (square pos c KING) (square pos (opp c) KING))).
  set (d := tbl PushClose _) in *.
  assert (0 <= Z.quot d (rule50_count pos + 1) <= 400).
  { rewrite Z.quot_div_nonneg by lia.
    split; [apply Z.div_pos; lia|].
    apply Z.div_le_upper_bound; nia. }
  destruct (relative_rank (opp c) pawnSq =? RANK_7),
           (distance (square pos (opp c) KING) pawnSq =? 1),
           (existsb (Z.eqb (file_of pawnSq)) [FILE_A; FILE_C; FILE_F; FILE_H]);
    cbv beta iota delta [negb andb orb]; lia.
Qed.




(** [Endgame<KRKP>] is not symmetric under the file mirror: with the strong
    king level with the pawn, the neighbouring file toward the h-file does not
    count as in front of it. *)
Theorem KRKP_not_mirror_symmetric :
  exists pos, pos_valid pos
    /\ Endgame_KRKP WHITE pos = VALUE_KNOWN_WIN + Z.quot RookValueEg 10 - PawnValueEg
    /\ Endgame_KRKP WHITE (mirror_pos pos) = 224.
Proof.
  exists (mk_pos WHITE 0 [(KING, 27); (ROOK, 56)] [(KING, 21); (PAWN, 28)]).
  split; [apply pos_validb_spec|]; vm_compute; auto.
Qed.

(** ** Transposition table *)

(** [first_entry] stays inside the table of [clusterCount] clusters, for every
    key, as long as the cluster count fits in 32 bits. *)
Theorem first_entry_in_table (key clusterCount : Z) :
  0 < clusterCount <= 2 ^ 32 -> 0 <= first_entry_index key clusterCount < clusterCount.
Proof.
  intros Hn. unfold first_entry_index.
  pose proof (Z.mod_pos_bound key (2 ^ 32) ltac:(lia)) as Hk.
  set (k := key mod 2 ^ 32) in *.
  rewrite (Z.mod_small (k * clusterCount)) by nia.
  rewrite Z.shiftr_div_pow2 by lia.
  split; [apply Z.div_pos; nia|]. apply Z.div_lt_upper_bound; nia.
Qed.

(** Every cluster of the table is the [first_entry] of some 32-bit key. *)
Theorem first_entry_reaches_all (clusterCount i : Z) :
  0 < clusterCount <= 2 ^ 32 -> 0 <= i < clusterCount ->
  exists key, 0 <= key < 2 ^ 32 /\ first_entry_index key clusterCount = i.
Proof.
  intros Hn Hi.
  set (n := clusterCount) in *.
  set (k := (i * 2 ^ 32 + n - 1) / n).
  pose proof (Z.div_mod (i * 2 ^ 32 + n - 1) n ltac:(lia)) as Hdm.
  pose proof (Z.mod_pos_bound (i * 2 ^ 32 + n - 1) n ltac:(lia)) as Hm.
  fold k in Hdm.
  set (m := (i * 2 ^ 32 + n - 1) mod n) in *.
  assert (Hk : 0 <= k < 2 ^ 32) by nia.
  exists k. split; [exact Hk|].
  unfold first_entry_index.
  rewrite (Z.mod_small k) by exact Hk.
  rewrite (Z.mod_small (k * n)) by nia.
  rewrite Z.shiftr_div_pow2 by lia.
  symmetry. apply (Z.div_unique _ _ _ (k * n - i * 2 ^ 32)); [left; nia | ring].
Qed.

Lemma new_search_iter (g : Z) (n : nat) :
  0 <= g < 2 ^ 32 -> Nat.iter n new_search g = (g + 8 * Z.of_nat n) mod 2 ^ 32.
Proof.
  intros Hg. induction n as [|n IH].
  - change (Nat.iter 0 new_search g) with g. rewrite Z.mod_small; lia.
  - rewrite Nat.iter_succ, IH. unfold new_search.
    rewrite Z.add_mod_idemp_l by lia. f_equal. lia.
Qed.

(** [new_search] leaves the three low bits of [generation32], the ones the
    PV flag and the bound use, unchanged, and after [2^29] searches the
    generation counter is back where it started. *)
Theorem new_search_generation (g : Z) (n : nat) :
  0 <= g < 2 ^ 32 ->
  Z.land (Nat.iter n new_search g) 7 = Z.land g 7
  /\ 0 <= Nat.iter n new_search g < 2 ^ 32
  /\ Nat.iter (Z.to_nat (2 ^ 29)) new_search g = g.
Proof.
  intros Hg. rewrite !new_search_iter by exact Hg.
  change 7 with (Z.ones 3). rewrite !Z.land_ones by lia.
  split; [|split].
  - rewrite Z.mod_mod_divide by (exists (2 ^ 29); reflexivity).
    replace (g + 8 * Z.of_nat n) with (g + Z.of_nat n * 2 ^ 3) by lia.
    apply Z.mod_add. lia.
  - apply Z.mod_pos_bound. lia.
  - rewrite Z2Nat.id by lia.
    replace (g + 8 * 2 ^ 29) with (g + 1 * 2 ^ 32) by reflexivity.
    rewrite Z.mod_add, Z.mod_small; lia.
Qed.


(** ** Material signature builder *)

Lemma find_from_bound (ch : ascii) (s : string) (i j : nat) :
  find_from ch s i = Some j -> (i <= j < String.length s)%nat.
Proof.
  revert i j. induction s as [|a s IH]; intros i j H; [discriminate|].
  cbn [find_from String.length] in *. destruct i as [|i].
  - destruct (Ascii.eqb a ch).
    + injection H as <-. lia.
    + destruct (find_from ch s 0) as [j'|] eqn:E; [|discriminate].
      injection H as <-. specialize (IH 0%nat j' E). lia.
  - destruct (find_from ch s i) as [j'|] eqn:E; [|discriminate].
    injection H as <-. specialize (IH i j' E). lia.
Qed.

Lemma substring_length (n m : nat) (s : string) :
  (n + m <= String.length s)%nat -> String.length (String.substring n m s) = m.
Proof.
  revert n m. induction s as [|a s IH]; intros n m H.
  - cbn [String.length] in H. assert (n = 0%nat /\ m = 0%nat) as [-> ->] by lia.
    reflexivity.
  - cbn [String.length] in H. destruct n as [|n]; destruct m as [|m]; cbn;
      try reflexivity; try (f_equal; apply IH; lia); apply IH; lia.
Qed.

Lemma string_map_length (f : ascii -> ascii) (s : string) :
  String.length (string_map f s) = String.length s.
Proof. induction s as [|a s IH]; cbn; auto. Qed.

Lemma count_char_value (side : string) :
  (1 <= String.length side <= 7)%nat ->
  (String.length side + (nat_of_ascii (count_char side) - 48) = 8)%nat.
Proof.
  intros H. unfold count_char. rewrite nat_ascii_embedding by lia. lia.
Qed.

(** The FEN [key] forges has one side's pieces on the eighth rank and the
    other's on the first, each of the two ranks filled up to eight squares
    by the digit after it, and the two sides share the letters of the code. *)
Theorem key_fen_ranks (code : string) (c : Color) (fen : string) :
  key_fen code c = KeyFen fen ->
  exists side0 side1,
    fen = (side0 ++ String (count_char side0) "/8/8/8/8/8/8/"
           ++ side1 ++ String (count_char side1) " w - - 0 10")%string
    /\ (1 <= String.length side0)%nat /\ (1 <= String.length side1)%nat
    /\ (String.length side0 + String.length side1 = String.length code)%nat
    /\ (String.length side0 + (nat_of_ascii (count_char side0) - 48) = 8)%nat
    /\ (String.length side1 + (nat_of_ascii (count_char side1) - 48) = 8)%nat.
Proof.
  intros H. unfold key_fen in H.
  destruct (Nat.ltb_spec 0 (String.length code)); [|discriminate].
  destruct (Nat.ltb_spec (String.length code) 8); [|discriminate].
  cbn [andb negb] in H.
  destruct (match String.get 0 code with
            | Some a => Ascii.eqb a "K"%char
            | None => false end); [|discriminate].
  cbn [negb] in H.
  destruct (find_from "K"%char code 1) as [i|] eqn:F; [|discriminate].
  apply find_from_bound in F.
  assert (L1 : String.length (String.substring i (String.length code - i) code)
               = (String.length code - i)%nat) by (apply substring_length; lia).
  assert (L2 : String.length (String.substring 0 i code) = i)
    by (apply substring_length; lia).
  destruct c; injection H as <-; eexists _, _; (split; [reflexivity|]);
    repeat split; try apply count_char_value;
    rewrite ?string_map_length, ?L1, ?L2; lia.
Qed.

Lemma nodupb_NoDup {A} (eqb : A -> A -> bool) (l : list A) :
  (forall x y, eqb x y = true <-> x = y) -> nodupb eqb l = true -> NoDup l.
Proof.
  intros Heq. induction l as [|x l IH]; intros H; [constructor|].
  cbn [nodupb] in H. apply andb_prop in H as [H1 H2].
  constructor; [|apply IH, H2].
  intros Hin.
  assert (E : existsb (eqb x) l = true)
    by (apply existsb_exists; exists x; split; [exact Hin | now apply Heq]).
  rewrite E in H1. discriminate.
Qed.

Lemma list_nat_eqb_spec (a b : list nat) : list_nat_eqb a b = true <-> a = b.
Proof.
  unfold list_nat_eqb. destruct (list_eq_dec Nat.eq_dec a b); split; congruence.
Qed.

(** No two of the 24 keys [Endgames::Endgames()] registers set up the same
    material: each registration has its own piece counts per color and type,
    so no [add] overwrites an entry of another endgame or color. *)
Theorem registry_materials_distinct : NoDup (map fen_material registry_keys).
Proof.
  apply (nodupb_NoDup list_nat_eqb); [exact list_nat_eqb_spec|].
  vm_compute. reflexivity.
Qed.

(** ** Answers of the scale evaluators *)

(** Six scale evaluators never scale partially: they answer
    [SCALE_FACTOR_DRAW] or [SCALE_FACTOR_NONE]; [Endgame<KRPKB>] answers 8,
    24, 48 or [SCALE_FACTOR_NONE]. *)
Theorem scale_evaluators_answers (strongSide : Color) (pos : Position) :
  In (Endgame_KBPsK strongSide pos) [SCALE_FACTOR_DRAW; SCALE_FACTOR_NONE]
  /\ In (Endgame_KPsK strongSide pos) [SCALE_FACTOR_DRAW; SCALE_FACTOR_NONE]
  /\ In (Endgame_KBPKB strongSide pos) [SCALE_FACTOR_DRAW; SCALE_FACTOR_NONE]
  /\ In (Endgame_KBPPKB strongSide pos) [SCALE_FACTOR_DRAW; SCALE_FACTOR_NONE]
  /\ In (Endgame_KBPKN strongSide pos) [SCALE_FACTOR_DRAW; SCALE_FACTOR_NONE]
  /\ In (Endgame_KNPK strongSide pos) [SCALE_FACTOR_DRAW; SCALE_FACTOR_NONE]
  /\ In (Endgame_KRPKB strongSide pos) [8; 24; 48; SCALE_FACTOR_NONE].
Proof.
  repeat split.
  - unfold Endgame_KBPsK. cbv zeta. split_branches; cbn; tauto.
  - unfold Endgame_KPsK. cbv zeta. split_branches; cbn; tauto.
  - unfold Endgame_KBPKB. cbv zeta. split_branches; cbn; tauto.
  - unfold Endgame_KBPPKB. cbv zeta.
    destruct (negb _); [cbn; tauto|].
    destruct (_ <? _); cbv beta iota;
      destruct (distance_file _ _) as [|[p|p|]|]; split_branches; cbn; tauto.
  - unfold Endgame_KBPKN. cbv zeta. split_branches; cbn; tauto.
  - unfold Endgame_KNPK. cbv zeta. split_branches; cbn; tauto.
  - unfold Endgame_KRPKB. cbv zeta. split_branches; cbn; tauto.
Qed.


(** ** The fortress test of a reflected position *)

(** A boolean relation checked on all pairs of squares holds on every pair. *)
Lemma forall_squares2 (P : Z -> Z -> bool) :
  forallb (fun a => forallb (P a) all_squares) all_squares = true ->
  forall a s, valid_sq a -> valid_sq s -> P a s = true.
Proof.
  intros H a s Ha Hs. rewrite forallb_forall in H.
  specialize (H a (In_all_squares a Ha)). rewrite forallb_forall in H.
  apply H, In_all_squares, Hs.
Qed.

Lemma king_attacks_flip (a s : Z) :
  valid_sq a -> valid_sq s ->
  Z.testbit (king_attacks (sq_flip a)) (sq_flip s) = Z.testbit (king_attacks a) s.
Proof.
  intros Ha Hs. apply Bool.eqb_prop.
  exact (forall_squares2
    (fun a s => Bool.eqb (Z.testbit (king_attacks (sq_flip a)) (sq_flip s))
                         (Z.testbit (king_attacks a) s))
    ltac:(vm_compute; reflexivity) a s Ha Hs).
Qed.

Lemma king_attacks_mirror (a s : Z) :
  valid_sq a -> valid_sq s ->
  Z.testbit (king_attacks (sq_mirror a)) (sq_mirror s) = Z.testbit (king_attacks a) s.
Proof.
  intros Ha Hs. apply Bool.eqb_prop.
  exact (forall_squares2
    (fun a s => Bool.eqb (Z.testbit (king_attacks (sq_mirror a)) (sq_mirror s))
                         (Z.testbit (king_attacks a) s))
    ltac:(vm_compute; reflexivity) a s Ha Hs).
Qed.

Lemma pawn_attacks_flip (c : Color) (a s : Z) :
  valid_sq a -> valid_sq s ->
  Z.testbit (pawn_attacks (opp c) (sq_flip a)) (sq_flip s) = Z.testbit (pawn_attacks c a) s.
Proof.
  intros Ha Hs. apply Bool.eqb_prop. destruct c.
  - exact (forall_squares2
      (fun a s => Bool.eqb (Z.testbit (pawn_attacks BLACK (sq_flip a)) (sq_flip s))
                           (Z.testbit (pawn_attacks WHITE a) s))
      ltac:(vm_compute; reflexivity) a s Ha Hs).
  - exact (forall_squares2
      (fun a s => Bool.eqb (Z.testbit (pawn_attacks WHITE (sq_flip a)) (sq_flip s))
                           (Z.testbit (pawn_attacks BLACK a) s))
      ltac:(vm_compute; reflexivity) a s Ha Hs).
Qed.

Lemma pawn_attacks_mirror (c : Color) (a s : Z) :
  valid_sq a -> valid_sq s ->
  Z.testbit (pawn_attacks c (sq_mirror a)) (sq_mirror s) = Z.testbit (pawn_attacks c a) s.
Proof.
  intros Ha Hs. apply Bool.eqb_prop. destruct c.
  - exact (forall_squares2
      (fun a s => Bool.eqb (Z.testbit (pawn_attacks WHITE (sq_mirror a)) (sq_mirror s))
                           (Z.testbit (pawn_attacks WHITE a) s))
      ltac:(vm_compute; reflexivity) a s Ha Hs).
  - exact (forall_squares2
      (fun a s => Bool.eqb (Z.testbit (pawn_attacks BLACK (sq_mirror a)) (sq_mirror s))
                           (Z.testbit (pawn_attacks BLACK a) s))
      ltac:(vm_compute; reflexivity) a s Ha Hs).
Qed.

Lemma FortressMask_flip (c : Color) (s : Z) :
  valid_sq s -> Z.testbit (FortressMask (opp c)) (sq_flip s) = Z.testbit (FortressMask c) s.
Proof.
  intros Hs. apply Bool.eqb_prop. destruct c.
  - exact (forall_squares
      (fun s => Bool.eqb (Z.testbit (FortressMask BLACK) (sq_flip s))
                         (Z.testbit (FortressMask WHITE) s)) eq_refl s Hs).
  - exact (forall_squares
      (fun s => Bool.eqb (Z.testbit (FortressMask WHITE) (sq_flip s))
                         (Z.testbit (FortressMask BLACK) s)) eq_refl s Hs).
Qed.

Lemma FortressMask_mirror (c : Color) (s : Z) :
  valid_sq s -> Z.testbit (FortressMask c) (sq_mirror s) = Z.testbit (FortressMask c) s.
Proof.
  intros Hs. apply Bool.eqb_prop. destruct c.
  - exact (forall_squares
      (fun s => Bool.eqb (Z.testbit (FortressMask WHITE) (sq_mirror s))
                         (Z.testbit (FortressMask WHITE) s)) eq_refl s Hs).
  - exact (forall_squares
      (fun s => Bool.eqb (Z.testbit (FortressMask BLACK) (sq_mirror s))
                         (Z.testbit (FortressMask BLACK) s)) eq_refl s Hs).
Qed.

Lemma existsb_map_comp {A B} (f : B -> bool) (g : A -> B) (l : list A) :
  existsb f (map g l) = existsb (fun x => f (g x)) l.
Proof. induction l as [|a l IH]; cbn; [reflexivity | now rewrite IH]. Qed.

Lemma map_valid_nonneg (T : Z -> Z) (l : list Z) :
  (forall s, valid_sq s -> valid_sq (T s)) ->
  (forall s, In s l -> valid_sq s) -> forall s, In s (map T l) -> 0 <= s.
Proof.
  intros HT Hl s Hs. apply in_map_iff in Hs as [x [<- Hx]].
  apply HT, Hl, Hx.
Qed.

Lemma kqkrps_fortress_flip (c : Color) (pos : Position) :
  pos_valid pos ->
  piece_list pos c KING <> [] -> piece_list pos (opp c) KING <> [] ->
  piece_list pos (opp c) ROOK <> [] ->
  kqkrps_fortress (opp c) (flip_pos pos) = kqkrps_fortress c pos.
Proof.
  intros Hv HK HK' HR. unfold kqkrps_fortress. rewrite opp_involutive. flip_squares.
  rewrite !relative_rank_flip'.
  pose proof (square_valid pos c KING Hv). pose proof (square_valid pos (opp c) KING Hv).
  pose proof (square_valid pos (opp c) ROOK Hv).
  rewrite <- !Z.land_assoc.
  unfold pieces_cp. cbn [flip_pos piece_list].
  assert (HPn : forall s, In s (piece_list pos (opp c) PAWN) -> 0 <= s)
    by (intros s Hs; apply (Hv (opp c) PAWN s Hs)).
  assert (HPf : forall s, In s (map sq_flip (piece_list pos (opp c) PAWN)) -> 0 <= s)
    by (apply map_valid_nonneg; [exact sq_flip_valid | intros s Hs; exact (Hv _ _ s Hs)]).
  rewrite !nonzero_land_bb by first [exact HPn | exact HPf].
  rewrite !existsb_map_comp.
  rewrite (existsb_ext_in (fun x => Z.testbit (FortressMask c) (sq_flip x))
                          (Z.testbit (FortressMask (opp c))))
    by (intros x Hx; rewrite <- (FortressMask_flip (opp c)), opp_involutive;
        [reflexivity | exact (Hv _ _ x Hx)]).
  rewrite (existsb_ext_in
             (fun x => Z.testbit (Z.land (king_attacks (sq_flip (square pos (opp c) KING)))
                                         (pawn_attacks (opp c) (sq_flip (square pos (opp c) ROOK))))
                                 (sq_flip x))
             (Z.testbit (Z.land (king_attacks (square pos (opp c) KING))
                                (pawn_attacks c (square pos (opp c) ROOK)))))
    by (intros x Hx; rewrite !Z.land_spec, king_attacks_flip, pawn_attacks_flip
          by first [assumption | exact (Hv _ _ x Hx)]; reflexivity).
  reflexivity.
Qed.

Lemma kqkrps_fortress_mirror (c : Color) (pos : Position) :
  pos_valid pos ->
  piece_list pos c KING <> [] -> piece_list pos (opp c) KING <> [] ->
  piece_list pos (opp c) ROOK <> [] ->
  kqkrps_fortress c (mirror_pos pos) = kqkrps_fortress c pos.
Proof.
  intros Hv HK HK' HR. unfold kqkrps_fortress. mirror_squares.
  rewrite !relative_rank_mirror.
  pose proof (square_valid pos c KING Hv). pose proof (square_valid pos (opp c) KING Hv).
  pose proof (square_valid pos (opp c) ROOK Hv).
  rewrite <- !Z.land_assoc.
  unfold pieces_cp. cbn [mirror_pos piece_list].
  assert (HPn : forall s, In s (piece_list pos (opp c) PAWN) -> 0 <= s)
    by (intros s Hs; apply (Hv (opp c) PAWN s Hs)).
  assert (HPf : forall s, In s (map sq_mirror (piece_list pos (opp c) PAWN)) -> 0 <= s)
    by (apply map_valid_nonneg; [exact sq_mirror_valid | intros s Hs; exact (Hv _ _ s Hs)]).
  rewrite !nonzero_land_bb by first [exact HPn | exact HPf].
  rewrite !existsb_map_comp.
  rewrite (existsb_ext_in (fun x => Z.testbit (FortressMask (opp c)) (sq_mirror x))
                          (Z.testbit (FortressMask (opp c))))
    by (intros x Hx; apply FortressMask_mirror, (Hv _ _ x Hx)).
  rewrite (existsb_ext_in
             (fun x => Z.testbit (Z.land (king_attacks (sq_mirror (square pos (opp c) KING)))
                                         (pawn_attacks c (sq_mirror (square pos (opp c) ROOK))))
                                 (sq_mirror x))
             (Z.testbit (Z.land (king_attacks (square pos (opp c) KING))
                                (pawn_attacks c (square pos (opp c) ROOK)))))
    by (intros x Hx; rewrite !Z.land_spec, king_attacks_mirror, pawn_attacks_mirror
          by first [assumption | exact (Hv _ _ x Hx)]; reflexivity).
  reflexivity.
Qed.

(** ** Evaluators under the reflections of the board *)

Ltac witness_side :=
  first [ apply pos_validb_spec; vm_compute; reflexivity
        | vm_compute; discriminate
        | intros []; vm_compute; discriminate
        | vm_compute; reflexivity
        | lia ].

(** [normalize] follows the reflections of the board: the normalized square
    of a square is the same in the color-swapped, upside-down position (read
    for the other color) and in the file-mirrored position. *)
Theorem normalize_reflections (pos : Position) (c : Color) (s : Z) :
  piece_list pos c PAWN <> [] ->
  normalize (flip_pos pos) (opp c) (sq_flip s) = normalize pos c s
  /\ normalize (mirror_pos pos) c (sq_mirror s) = normalize pos c s.
Proof. intros H. split; [apply normalize_flip | apply normalize_mirror]; exact H. Qed.

Lemma normalize_reflections_witness :
  normalize (flip_pos pos_sym) (opp WHITE) (sq_flip 33) = normalize pos_sym WHITE 33
  /\ normalize (mirror_pos pos_sym) WHITE (sq_mirror 33) = normalize pos_sym WHITE 33.
Proof. apply normalize_reflections. witness_side. Defined.

(** The tables of [Endgame<KXK>] follow the symmetries of the board:
    [PushToEdges] is unchanged by the upside-down turn and by the file
    mirror, [PushToCorners] by the half turn that does both. *)
Theorem geometry_tables_reflections (s : Z) :
  valid_sq s ->
  tbl PushToEdges (sq_flip s) = tbl PushToEdges s
  /\ tbl PushToEdges (sq_mirror s) = tbl PushToEdges s
  /\ tbl PushToCorners (sq_flip (sq_mirror s)) = tbl PushToCorners s.
Proof.
  intros Hs. split; [|split];
    [apply PushToEdges_flip | apply PushToEdges_mirror | apply PushToCorners_half_turn];
    exact Hs.
Qed.

Lemma geometry_tables_reflections_witness :
  tbl PushToEdges (sq_flip 9) = tbl PushToEdges 9
  /\ tbl PushToEdges (sq_mirror 9) = tbl PushToEdges 9
  /\ tbl PushToCorners (sq_flip (sq_mirror 9)) = tbl PushToCorners 9.
Proof. apply geometry_tables_reflections. unfold valid_sq. lia. Defined.

(** [FortressMask[BLACK]] is [FortressMask[WHITE]] turned upside down, and
    both masks are symmetric under the file mirror. *)
Theorem FortressMask_reflections (s : Z) :
  valid_sq s ->
  Z.testbit (FortressMask BLACK) (sq_flip s) = Z.testbit (FortressMask WHITE) s
  /\ Z.testbit (FortressMask WHITE) (sq_mirror s) = Z.testbit (FortressMask WHITE) s
  /\ Z.testbit (FortressMask BLACK) (sq_mirror s) = Z.testbit (FortressMask BLACK) s.
Proof.
  intros Hs. split; [|split];
    [apply (FortressMask_flip WHITE) | apply FortressMask_mirror | apply FortressMask_mirror];
    exact Hs.
Qed.

Lemma FortressMask_reflections_witness :
  Z.testbit (FortressMask BLACK) (sq_flip 17) = Z.testbit (FortressMask WHITE) 17
  /\ Z.testbit (FortressMask WHITE) (sq_mirror 17) = Z.testbit (FortressMask WHITE) 17
  /\ Z.testbit (FortressMask BLACK) (sq_mirror 17) = Z.testbit (FortressMask BLACK) 17.
Proof. apply FortressMask_reflections. unfold valid_sq. lia. Defined.

(** [Endgame<KXK>] gives the same value to a position, to its color-swapped
    upside-down image read for the other strong side, and to its file
    mirror, when the legal move count is the same in all three. *)
Theorem KXK_reflections (legal_moves : Position -> nat) (c : Color) (pos : Position) :
  pos_valid pos ->
  piece_list pos c KING <> [] -> piece_list pos (opp c) KING <> [] ->
  legal_moves (flip_pos pos) = legal_moves pos ->
  legal_moves (mirror_pos pos) = legal_moves pos ->
  Endgame_KXK legal_moves (opp c) (flip_pos pos) = Endgame_KXK legal_moves c pos
  /\ Endgame_KXK legal_moves c (mirror_pos pos) = Endgame_KXK legal_moves c pos.
Proof.
  intros Hv HK HK' HF HM. split;
    [apply KXK_color_symmetric | apply KXK_mirror_symmetric]; assumption.
Qed.

Lemma KXK_reflections_witness :
  Endgame_KXK (fun _ => 1%nat) (opp WHITE) (flip_pos pos_sym)
    = Endgame_KXK (fun _ => 1%nat) WHITE pos_sym
  /\ Endgame_KXK (fun _ => 1%nat) WHITE (mirror_pos pos_sym)
    = Endgame_KXK (fun _ => 1%nat) WHITE pos_sym.
Proof. apply KXK_reflections; witness_side. Defined.

(** [Endgame<KPK>] gives the same value to a position with a king on each
    side and a strong pawn, to its color-swapped upside-down image and to
    its file mirror. *)
Theorem KPK_reflections (probe : Z -> Z -> Z -> Color -> bool) (c : Color) (pos : Position) :
  piece_list pos c KING <> [] -> piece_list pos (opp c) KING <> [] ->
  piece_list pos c PAWN <> [] ->
  Endgame_KPK probe (opp c) (flip_pos pos) = Endgame_KPK probe c pos
  /\ Endgame_KPK probe c (mirror_pos pos) = Endgame_KPK probe c pos.
Proof. intros HK HK' HP. split; [apply KPK_flip | apply KPK_mirror]; assumption. Qed.

Lemma KPK_reflections_witness :
  Endgame_KPK probe_all_win (opp WHITE) (flip_pos pos_sym) = Endgame_KPK probe_all_win WHITE pos_sym
  /\ Endgame_KPK probe_all_win WHITE (mirror_pos pos_sym) = Endgame_KPK probe_all_win WHITE pos_sym.
Proof. apply KPK_reflections; witness_side. Defined.

(** [Endgame<KRPKR>] gives the same scale factor to a position with a king
    and a rook on each side and a strong pawn, to its color-swapped
    upside-down image and to its file mirror. *)
Theorem KRPKR_reflections (c : Color) (pos : Position) :
  (forall c', piece_list pos c' KING <> []) ->
  (forall c', piece_list pos c' ROOK <> []) ->
  piece_list pos c PAWN <> [] ->
  Endgame_KRPKR (opp c) (flip_pos pos) = Endgame_KRPKR c pos
  /\ Endgame_KRPKR c (mirror_pos pos) = Endgame_KRPKR c pos.
Proof. intros HK HR HP. split; [apply KRPKR_flip | apply KRPKR_mirror]; assumption. Qed.

Lemma KRPKR_reflections_witness :
  Endgame_KRPKR (opp WHITE) (flip_pos pos_sym) = Endgame_KRPKR WHITE pos_sym
  /\ Endgame_KRPKR WHITE (mirror_pos pos_sym) = Endgame_KRPKR WHITE pos_sym.
Proof. apply KRPKR_reflections; witness_side. Defined.

(** [Endgame<KNPK>] gives the same scale factor to a position with a king on
    each side and a strong pawn and knight, to its color-swapped upside-down
    image and to its file mirror. *)
Theorem KNPK_reflections (c : Color) (pos : Position) :
  (forall c', piece_list pos c' KING <> []) ->
  piece_list pos c PAWN <> [] -> piece_list pos c KNIGHT <> [] ->
  Endgame_KNPK (opp c) (flip_pos pos) = Endgame_KNPK c pos
  /\ Endgame_KNPK c (mirror_pos pos) = Endgame_KNPK c pos.
Proof. intros HK HP HN. split; [apply KNPK_flip | apply KNPK_mirror]; assumption. Qed.

Lemma KNPK_reflections_witness :
  Endgame_KNPK (opp WHITE) (flip_pos pos_sym) = Endgame_KNPK WHITE pos_sym
  /\ Endgame_KNPK WHITE (mirror_pos pos_sym) = Endgame_KNPK WHITE pos_sym.
Proof. apply KNPK_reflections; witness_side. Defined.

(** [Endgame<KBPKN>] gives the same scale factor to a position with a weak
    king and a strong pawn and bishop, to its color-swapped upside-down
    image and to its file mirror. *)
Theorem KBPKN_reflections (c : Color) (pos : Position) :
  piece_list pos (opp c) KING <> [] ->
  piece_list pos c PAWN <> [] -> piece_list pos c BISHOP <> [] ->
  Endgame_KBPKN (opp c) (flip_pos pos) = Endgame_KBPKN c pos
  /\ Endgame_KBPKN c (mirror_pos pos) = Endgame_KBPKN c pos.
Proof. intros HK HP HB. split; [apply KBPKN_flip | apply KBPKN_mirror]; assumption. Qed.

Lemma KBPKN_reflections_witness :
  Endgame_KBPKN (opp WHITE) (flip_pos pos_sym) = Endgame_KBPKN WHITE pos_sym
  /\ Endgame_KBPKN WHITE (mirror_pos pos_sym) = Endgame_KBPKN WHITE pos_sym.
Proof. apply KBPKN_reflections; witness_side. Defined.

(** [Endgame<KQKP>] gives the same value to a position with a king on each
    side and a weak pawn, to its color-swapped upside-down image and to its
    file mirror. *)
Theorem KQKP_reflections (c : Color) (pos : Position) :
  pos_valid pos ->
  piece_list pos c KING <> [] -> piece_list pos (opp c) KING <> [] ->
  piece_list pos (opp c) PAWN <> [] ->
  Endgame_KQKP (opp c) (flip_pos pos) = Endgame_KQKP c pos
  /\ Endgame_KQKP c (mirror_pos pos) = Endgame_KQKP c pos.
Proof. intros Hv HK HK' HP. split; [apply KQKP_flip | apply KQKP_mirror]; assumption. Qed.

Lemma KQKP_reflections_witness :
  Endgame_KQKP (opp WHITE) (flip_pos pos_sym) = Endgame_KQKP WHITE pos_sym
  /\ Endgame_KQKP WHITE (mirror_pos pos_sym) = Endgame_KQKP WHITE pos_sym.
Proof. apply KQKP_reflections; witness_side. Defined.

(** [Endgame<KQKRPs>] gives the same scale factor to a position with a king
    on each side and a weak rook, to its color-swapped upside-down image and
    to its file mirror. *)
Theorem KQKRPs_reflections (c : Color) (pos : Position) :
  pos_valid pos ->
  piece_list pos c KING <> [] -> piece_list pos (opp c) KING <> [] ->
  piece_list pos (opp c) ROOK <> [] ->
  Endgame_KQKRPs (opp c) (flip_pos pos) = Endgame_KQKRPs c pos
  /\ Endgame_KQKRPs c (mirror_pos pos) = Endgame_KQKRPs c pos.
Proof.
  intros Hv HK HK' HR. unfold Endgame_KQKRPs.
  rewrite kqkrps_fortress_flip, kqkrps_fortress_mirror by assumption.
  split; reflexivity.
Qed.

Lemma KQKRPs_reflections_witness :
  Endgame_KQKRPs (opp WHITE) (flip_pos pos_sym) = Endgame_KQKRPs WHITE pos_sym
  /\ Endgame_KQKRPs WHITE (mirror_pos pos_sym) = Endgame_KQKRPs WHITE pos_sym.
Proof. apply KQKRPs_reflections; witness_side. Defined.

(** [Endgame<KRKP>] gives the same value to a position with a king on each
    side, a strong rook and a weak pawn and to its color-swapped upside-down
    image read for the other strong side. *)
Theorem KRKP_color_swap (c : Color) (pos : Position) :
  piece_list pos c KING <> [] -> piece_list pos (opp c) KING <> [] ->
  piece_list pos c ROOK <> [] -> piece_list pos (opp c) PAWN <> [] ->
  Endgame_KRKP (opp c) (flip_pos pos) = Endgame_KRKP c pos.
Proof. intros HK HK' HR HP. apply KRKP_flip; assumption. Qed.

Lemma KRKP_color_swap_witness :
  Endgame_KRKP (opp WHITE) (flip_pos pos_krkp_level) = Endgame_KRKP WHITE pos_krkp_level.
Proof. apply KRKP_color_swap; witness_side. Defined.

(** ** Witnesses of the score and table theorems *)

Lemma KRKP_score_for_rook_side_witness :
  exists r, Endgame_KRKP WHITE pos_krkp_level
              = (if color_eqb WHITE (side_to_move pos_krkp_level) then r else - r)
            /\ (r = VALUE_KNOWN_WIN + Z.quot RookValueEg 10 - PawnValueEg
                \/ 24 <= r <= 320).
Proof. apply KRKP_score_for_rook_side. witness_side. Defined.

Lemma KQKP_score_for_queen_side_witness :
  let pawnSq := square pos_sym (opp WHITE) PAWN in
  exists r, Endgame_KQKP WHITE pos_sym
              = (if color_eqb WHITE (side_to_move pos_sym) then r else - r)
    /\ (if (relative_rank (opp WHITE) pawnSq =? RANK_7)
           && (distance (square pos_sym (opp WHITE) KING) pawnSq =? 1)
           && existsb (Z.eqb (file_of pawnSq)) [FILE_A; FILE_C; FILE_F; FILE_H]
        then 0 <= r <= 400
        else VALUE_KNOWN_WIN + Z.quot QueenValueEg 10 - PawnValueEg <= r
             <= VALUE_KNOWN_WIN + Z.quot QueenValueEg 10 - PawnValueEg + 400).
Proof. apply KQKP_score_for_queen_side; witness_side. Defined.


Lemma first_entry_in_table_witness :
  0 <= first_entry_index 123456789 3 < 3.
Proof. apply first_entry_in_table. lia. Defined.

Lemma first_entry_reaches_all_witness :
  exists key, 0 <= key < 2 ^ 32 /\ first_entry_index key 3 = 2.
Proof. apply first_entry_reaches_all; lia. Defined.

Lemma new_search_generation_witness :
  Z.land (Nat.iter 5 new_search 13) 7 = Z.land 13 7
  /\ 0 <= Nat.iter 5 new_search 13 < 2 ^ 32
  /\ Nat.iter (Z.to_nat (2 ^ 29)) new_search 13 = 13.
Proof. apply new_search_generation. lia. Defined.

Lemma key_fen_ranks_witness :
  exists side0 side1,
    "kn6/8/8/8/8/8/8/KBP5 w - - 0 10"%string
      = (side0 ++ String (count_char side0) "/8/8/8/8/8/8/"
         ++ side1 ++ String (count_char side1) " w - - 0 10")%string
    /\ (1 <= String.length side0)%nat /\ (1 <= String.length side1)%nat
    /\ (String.length side0 + String.length side1 = String.length "KBPKN")%nat
    /\ (String.length side0 + (nat_of_ascii (count_char side0) - 48) = 8)%nat
    /\ (String.length side1 + (nat_of_ascii (count_char side1) - 48) = 8)%nat.
Proof. apply (key_fen_ranks "KBPKN" WHITE). vm_compute. reflexivity. Defined.
